(** * telegram-chat-scraper: wrapper, relay routes and display component

  A shallow embedding of

    - [src/lib/telegram/client.ts]         (module [Client]),
    - [src/app/api/telegram/stream/route.ts]   (module [StreamRoute]),
    - [src/app/api/telegram/messages/route.ts] (module [FetchRoute]),
    - the [MessageList] React component    (module [MessageList]),

  together with the properties the specification states about them.

  Conventions.  Identifiers delivered by the platform (message ids,
  topic ids, peer ids) are integers and are modelled in [Z].  A JavaScript
  value that may be [undefined] is an [option].  Exceptions are modelled
  with the [result] type; module-level and instance variables are
  threaded explicitly through state records. *)

From stdpp Require Import base tactics option list strings pretty.
From Stdlib Require Import ZArith Lia.

Open Scope string_scope.

(** ** JavaScript helpers *)

Module Js.

(** A property of a JavaScript object, as seen by the [in] operator and
    by a property read: the key may be missing from the object, present
    with the value [undefined], or present with a value. *)
Inductive field (A : Type) : Type :=
| Absent
| Undefined
| Present (a : A).
Arguments Absent {A}.
Arguments Undefined {A}.
Arguments Present {A} a.

(** A JavaScript number that holds an integer or [NaN] (what [parseInt]
    and [Number] return on the strings this program gives them). *)
Inductive number : Type :=
| Num (z : Z)
| NaN.

(** [a === b] on numbers: [NaN] equals nothing, not even itself. *)
Definition number_eq (a b : number) : bool :=
  match a, b with
  | Num x, Num y => Z.eqb x y
  | _, _ => false
  end.

(** ['k' in o] *)
Definition has_key {A} (f : field A) : bool :=
  match f with
  | Absent => false
  | _ => true
  end.

(** [o.k], with [None] for [undefined] *)
Definition read {A} (f : field A) : option A :=
  match f with
  | Present a => Some a
  | _ => None
  end.


(** truthiness of [o.k] for a boolean-valued property *)
Definition truthy (f : field bool) : bool :=
  match read f with
  | Some b => b
  | None => false
  end.

(** [o.k === n] for a number [n] *)
Definition strict_eq_num (f : field Z) (n : number) : bool :=
  match read f with
  | Some v => number_eq (Num v) n
  | None => false
  end.

(** [s.replace(pat, rep)] for a string pattern and a replacement without
    [$] patterns: the leftmost occurrence of [pat] in [s] is replaced,
    wherever it is; without an occurrence [s] is returned unchanged. *)
Fixpoint replace (pat rep s : string) : string :=
  if String.prefix pat s
  then rep +:+ String.substring (String.length pat)
                                (String.length s - String.length pat) s
  else match s with
       | EmptyString => EmptyString
       | String c s' => String c (replace pat rep s')
       end.

(** [s.includes(pat)] *)
Fixpoint includes (pat s : string) : bool :=
  if String.prefix pat s then true
  else match s with
       | EmptyString => false
       | String _ s' => includes pat s'
       end.

(** Thrown values.  The handlers of this program only ever ask whether
    a thrown value is an [Error] and, if so, read its [message]. *)
Inductive thrown : Type :=
| ErrorObject (message : string)
| OtherValue.

(** The outcome of a call that may throw. *)
Inductive result (A : Type) : Type :=
| Return (a : A)
| Throw (e : thrown).
Arguments Return {A} a.
Arguments Throw {A} e.

Definition bind {A B} (r : result A) (k : A -> result B) : result B :=
  match r with
  | Return a => k a
  | Throw e => Throw e
  end.

(** [try { body } catch (error) { handler(error) }] *)
Definition try_catch {A} (body : result A) (handler : thrown -> result A)
  : result A :=
  match body with
  | Return a => Return a
  | Throw e => handler e
  end.

End Js.

#[global] Instance result_ret : MRet Js.result := @Js.Return.
#[global] Instance result_bind : MBind Js.result :=
fun A B k r => Js.bind r k.

(** ** The platform's data, as the wrapper reads it *)

Module Api.

(** [Api.TypePeer]; [PeerOther] stands for any object that is none of
    the three classes [extractPeerId] probes. *)
Inductive Peer : Type :=
| PeerUser (userId : Z)
| PeerChat (chatId : Z)
| PeerChannel (channelId : Z)
| PeerOther.

(** [message.replyTo].  The wrapper probes the header with [in] and
    reads three of its properties. *)
Record ReplyHeader : Type := {
  replyToTopId : Js.field Z;
  forumTopic : Js.field bool;
  replyToMsgId : Js.field Z;
}.

(** [Api.Message] *)
Record Message : Type := {
  id : Z;
  message : option string;
  date : Z;
  fromId : option Peer;
  peerId : option Peer;
  replyTo : option ReplyHeader;
}.

(** [Api.MessageService] *)
Record MessageService : Type := {
  service_id : Z;
  service_date : Z;
  service_fromId : option Peer;
}.

(** [Api.TypeMessage] *)
Inductive TypeMessage : Type :=
| IsMessage (m : Message)
| IsMessageService (s : MessageService)
| IsMessageEmpty (empty_id : Z).

(** An entry of [result.topics]: [Api.ForumTopic] or
    [Api.ForumTopicDeleted]. *)
Record ForumTopic : Type := {
  topic_id : Z;
  title : string;
  unreadCount : option Z;
  topMessage : Z;
  topic_date : Z;
  closed : option bool;
  pinned : option bool;
}.

Inductive TypeForumTopic : Type :=
| IsForumTopic (t : ForumTopic)
| IsForumTopicDeleted (deleted_id : Z).

End Api.

(** ** [src/lib/telegram/client.ts] *)

Module Client.

Record ParsedMessage : Type := {
  id : Z;
  text : string;
  date : Z;
  fromId : option string;
  replyToMsgId : option Z;
  topicId : option Z;
}.

Record ForumTopicInfo : Type := {
  info_id : Z;
  title : string;
  unreadCount : Z;
  lastMessageId : option Z;
  info_date : Z;
  closed : bool;
  pinned : bool;
}.

(** [chatId: string | number].  A numeric chat id is an integer; its
    [toString()] is its decimal notation. *)
Inductive ChatId : Type :=
| ChatIdString (s : string)
| ChatIdNumber (n : Z).

Definition chatId_toString (chatId : ChatId) : string :=
  match chatId with
  | ChatIdString s => s
  | ChatIdNumber n => pretty n
  end.

(** [extractPeerId]: the peer's big-integer id in decimal, by peer class. *)
Definition extractPeerId (peer : Api.Peer) : string :=
  match peer with
  | Api.PeerUser userId => pretty userId
  | Api.PeerChat chatId => pretty chatId
  | Api.PeerChannel channelId => pretty channelId
  | Api.PeerOther => ""
  end.

(** The local [topicId] of [parseMessage]: the message's thread root, read
    from [replyToTopId] when the reply header has that key, otherwise from
    [replyToMsgId] when the header is flagged [forumTopic]. *)
Definition threadRoot (msg : Api.Message) : option Z :=
  match Api.replyTo msg with
  | Some r =>
      if Js.has_key (Api.replyToTopId r) then Js.read (Api.replyToTopId r)
      else if Js.has_key (Api.forumTopic r) && Js.truthy (Api.forumTopic r)
           then Js.read (Api.replyToMsgId r)
           else None
  | None => None
  end.

Definition parseMessage (msg : Api.TypeMessage) : option ParsedMessage :=
  match msg with
  | Api.IsMessage m =>
      Some {| id := Api.id m;
              text := default "" (Api.message m);
              date := Api.date m;
              fromId := extractPeerId <$> Api.fromId m;
              replyToMsgId :=
                match Api.replyTo m with
                | Some r => if Js.has_key (Api.replyToMsgId r)
                            then Js.read (Api.replyToMsgId r) else None
                | None => None
                end;
              topicId := threadRoot m |}
  | Api.IsMessageService s =>
      Some {| id := Api.service_id s;
              text := "[Service Message]";
              date := Api.service_date s;
              fromId := extractPeerId <$> Api.service_fromId s;
              replyToMsgId := None;
              topicId := None |}
  | Api.IsMessageEmpty _ => None
  end.

(** *** The new-message handler of [streamForumTopicMessages] *)

(** The local [msgChatId] of the handler. *)
Definition msgChatId (message : Api.Message) : string :=
  match Api.peerId message with
  | Some peer => extractPeerId peer
  | None => ""
  end.

(** "Check if message is from our target chat" *)
Definition isTargetChat (chatId : ChatId) (message : Api.Message) : bool :=
  String.eqb (msgChatId message) (chatId_toString chatId)
  || String.eqb (msgChatId message)
                (Js.replace "-100" "" (chatId_toString chatId)).

(** The test of the "General topic" branch. *)
Definition generalTopicTest (message : Api.Message) : bool :=
  match Api.replyTo message with
  | None => true
  | Some r =>
      (Js.has_key (Api.replyToTopId r)
       && Js.strict_eq_num (Api.replyToTopId r) (Js.Num 1))
      || (Js.has_key (Api.forumTopic r) && Js.truthy (Api.forumTopic r))
  end.

(** The test of the "Other topics" branch. *)
Definition otherTopicTest (topicId : Js.number) (message : Api.Message)
  : bool :=
  match Api.replyTo message with
  | None => false
  | Some r =>
      Js.has_key (Api.replyToTopId r)
      && Js.strict_eq_num (Api.replyToTopId r) topicId
  end.

(** The handler registered by [streamForumTopicMessages chatId topicId
    onMessage]: on an event it either returns without effect ([None]) or
    calls [onMessage] once, with the returned record.  [TOPIC_ID] is
    [Number(process.env.TOPIC_ID)]. *)
Definition newMessageHandler (TOPIC_ID : Js.number) (chatId : ChatId)
    (topicId : Js.number) (event_message : option Api.TypeMessage)
  : option ParsedMessage :=
  match event_message with
  | Some (Api.IsMessage message) =>
      if isTargetChat chatId message then
        if Js.number_eq topicId TOPIC_ID then
          if generalTopicTest message
          then parseMessage (Api.IsMessage message)
          else None
        else
          if otherTopicTest topicId message
          then parseMessage (Api.IsMessage message)
          else None
      else None
  | _ => None
  end.

(** *** The connection handle *)

(** The library's [TelegramClient] objects, in creation order; all the
    wrapper observes of one is its [connected] flag. *)
Record World : Type := {
  clients : list bool;
}.

(** A [TelegramService] instance: [this.client] refers to a client object
    of the world, or is [null]. *)
Record TelegramService : Type := {
  client : option nat;
}.

Definition isConnected (w : World) (c : nat) : bool :=
  default false (clients w !! c).

(** [this.client && this.client.connected] *)
Definition holdsLiveHandle (w : World) (this : TelegramService) : bool :=
  match client this with
  | Some c => isConnected w c
  | None => false
  end.

(** [connect()].  [transport] is the outcome of the library's
    [client.connect()] (which retries the transport 5 times and then
    throws). *)
Definition connect (transport : Js.result unit) (w : World)
    (this : TelegramService) : World * TelegramService * Js.result nat :=
  let fresh :=
    let c := length (clients w) in
    let w1 := {| clients := clients w ++ [false] |} in
    let this1 := {| client := Some c |} in
    match transport with
    | Js.Return _ =>
        ({| clients := <[c := true]> (clients w1) |}, this1, Js.Return c)
    | Js.Throw e => (w1, this1, Js.Throw e)
    end in
  match client this with
  | Some c => if isConnected w c then (w, this, Js.Return c) else fresh
  | None => fresh
  end.

(** [disconnect()] *)
Definition disconnect (w : World) (this : TelegramService)
  : World * TelegramService :=
  match client this with
  | Some c => ({| clients := <[c := false]> (clients w) |},
               {| client := None |})
  | None => (w, this)
  end.

(** *** One-shot reads *)

(** The platform behind the library, as far as one wrapper call sees it:
    the outcome of each library call the wrapper makes. *)
Record Upstream : Type := {
  transport : Js.result unit;
  getEntity : ChatId -> Js.result Z;
  (** [messages.GetReplies {peer, msgId, limit}]; [None] for a result
      object without a [messages] key *)
  GetReplies : Z -> Js.number -> Js.number
               -> Js.result (option (list Api.TypeMessage));
  (** [channels.GetForumTopics {channel, limit}]; [None] for a falsy
      [result.topics] *)
  GetForumTopics : Z -> Z -> Js.result (option (list Api.TypeForumTopic));
  (** [messages.GetHistory {peer, offsetId, limit}] *)
  GetHistory : Z -> Js.number -> Js.number
               -> Js.result (option (list Api.TypeMessage));
}.

(** The loop that pushes every message [parseMessage] accepts. *)
Definition parseAll (result_messages : option (list Api.TypeMessage))
  : list ParsedMessage :=
  match result_messages with
  | Some msgs => omap parseMessage msgs
  | None => []
  end.

Definition getForumTopicMessages (up : Upstream) (w : World)
    (this : TelegramService) (chatId : ChatId) (topicId limit : Js.number)
  : World * TelegramService * Js.result (list ParsedMessage) :=
  let '(w1, this1, connected) := connect (transport up) w this in
  (w1, this1,
   _ ← connected;
   Js.try_catch
     (chat ← getEntity up chatId;
      result ← GetReplies up chat topicId limit;
      mret (parseAll result))
     (fun error => Js.Throw error)).

Definition toForumTopicInfo (topic : Api.ForumTopic) : ForumTopicInfo :=
  {| info_id := Api.topic_id topic;
     title := Api.title topic;
     unreadCount := default 0%Z (Api.unreadCount topic);
     lastMessageId := Some (Api.topMessage topic);
     info_date := Api.topic_date topic;
     closed := default false (Api.closed topic);
     pinned := default false (Api.pinned topic) |}.

Definition keepForumTopic (topic : Api.TypeForumTopic)
  : option ForumTopicInfo :=
  match topic with
  | Api.IsForumTopic t => Some (toForumTopicInfo t)
  | Api.IsForumTopicDeleted _ => None
  end.

Definition getForumTopics (up : Upstream) (w : World)
    (this : TelegramService) (chatId : ChatId)
  : World * TelegramService * Js.result (list ForumTopicInfo) :=
  let '(w1, this1, connected) := connect (transport up) w this in
  (w1, this1,
   _ ← connected;
   Js.try_catch
     (entity ← getEntity up chatId;
      result ← GetForumTopics up entity 100%Z;
      mret (match result with
            | Some topics => omap keepForumTopic topics
            | None => []
            end))
     (fun error => Js.Throw error)).

Definition getSupergroupMessages (up : Upstream) (w : World)
    (this : TelegramService) (chatId : ChatId) (limit offsetId : Js.number)
  : World * TelegramService * Js.result (list ParsedMessage) :=
  let '(w1, this1, connected) := connect (transport up) w this in
  (w1, this1,
   _ ← connected;
   Js.try_catch
     (chat ← getEntity up chatId;
      result ← GetHistory up chat offsetId limit;
      mret (parseAll result))
     (fun error => Js.Throw error)).

End Client.

(** ** Request parameters shared by the two routes *)

Module Request.

(** [process.env]: [SUPERGROUP_ID] is asserted non-null by the source
    ([process.env.SUPERGROUP_ID!]); [TOPIC_ID] may be unset. *)
Record Env : Type := {
  SUPERGROUP_ID : string;
  TOPIC_ID : option string;
}.

(** [request.nextUrl.searchParams]: [get] returns a string or [null]. *)
Record Query : Type := {
  get_chatId : option string;
  get_topicId : option string;
  get_limit : option string;
}.

(** [a || b] for a string-or-null [a]: the empty string is falsy too. *)
Definition or_else (a : option string) (b : string) : string :=
  match a with
  | Some s => if String.eqb s "" then b else s
  | None => b
  end.

(** [a || b] where [b] may itself be undefined. *)
Definition or_else_opt (a b : option string) : option string :=
  match a with
  | Some s => if String.eqb s "" then b else Some s
  | None => b
  end.

End Request.

(** ** [src/app/api/telegram/stream/route.ts] *)

Module StreamRoute.

Section WithBuiltins.

(** [parseInt] on the strings the route gives it. *)
Variable parseInt : string -> Js.number.
Variable env : Request.Env.

(** The chunks the route writes to the push channel. *)
Inductive SseEvent : Type :=
| connected (topicId : Js.number) (chatId : string) (timestamp : Z)
| message (topicId : Js.number) (msg : Client.ParsedMessage) (timestamp : Z)
| ping (timestamp : Z)
| error (error_message : string) (timestamp : Z).

Definition isMessageEvent (e : SseEvent) : bool :=
  match e with
  | message _ _ _ => true
  | _ => false
  end.

(** The stream's controller: what was enqueued, oldest first, and whether
    the stream is still readable. *)
Record Controller : Type := {
  chunks : list SseEvent;
  readable : bool;
}.

(** [controller.enqueue(chunk)] throws a [TypeError] once the stream is
    closed or cancelled. *)
Definition enqueue (chunk : SseEvent) (c : Controller)
  : Js.result Controller :=
  if readable c
  then Js.Return {| chunks := chunks c ++ [chunk]; readable := true |}
  else Js.Throw (Js.ErrorObject "Invalid state: Controller is already closed").

(** [heartbeatInterval]: [null], a running interval, or an interval that
    [clearInterval] has stopped. *)
Inductive Interval : Type :=
| NoInterval
| Running
| Cleared.

(** [if (heartbeatInterval) clearInterval(heartbeatInterval)] *)
Definition clearIfSet (i : Interval) : Interval :=
  match i with
  | NoInterval => NoInterval
  | _ => Cleared
  end.

(** Where the [await] in [start] stands. *)
Inductive Setup : Type :=
| Pending
| Subscribed
| Failed.

(** The variables one invocation of [GET] closes over.  [subscribedOn] is
    the wrapper on which [start] called [streamForumTopicMessages]. *)
Record Connection : Type := {
  chatId : string;
  topicId : Js.number;
  heartbeatInterval : Interval;
  isStreamActive : bool;
  controller : Controller;
  setup : Setup;
  subscribedOn : nat;
}.

(** The module: its variable [telegramService] (a reference to a wrapper,
    wrappers being numbered in the order [new TelegramService()] made
    them), the invocations of [GET] so far, and a log of the wrappers on
    which [disconnect()] was called. *)
Record State : Type := {
  telegramService : option nat;
  wrappers : nat;
  connections : list Connection;
  disconnected : list nat;
}.

Definition initial : State :=
  {| telegramService := None; wrappers := 0;
     connections := []; disconnected := [] |}.

Inductive Event : Type :=
(** a request arrives: [GET] runs, and [start] runs up to its [await] *)
| Get (query : Request.Query) (now : Z)
(** the promise [start] awaits settles *)
| Settle (conn : nat) (outcome : Js.result unit) (now : Z)
(** the wrapper's handler calls the [onMessage] of a connection *)
| OnMessage (conn : nat) (msg : Client.ParsedMessage) (now : Z)
(** the heartbeat interval of a connection fires *)
| Heartbeat (conn : nat) (now : Z)
(** the consumer cancels the stream of a connection *)
| Cancel (conn : nat)
(** the request of a connection is aborted *)
| Abort (conn : nat).

(** [telegramService = new TelegramService()] *)
Definition newService (st : State) : State :=
  {| telegramService := Some (wrappers st);
     wrappers := S (wrappers st);
     connections := connections st;
     disconnected := disconnected st |}.

(** [start(controller)] up to its [await]: the [connected] event is
    enqueued and [telegramService!.streamForumTopicMessages] is called,
    on the wrapper the module's variable holds at that moment. *)
Definition start (chatId : string) (topicId : Js.number) (now : Z)
    (st : State) : Connection :=
  {| chatId := chatId; topicId := topicId;
     heartbeatInterval := NoInterval; isStreamActive := true;
     controller := {| chunks := [connected topicId chatId now];
                      readable := true |};
     setup := Pending;
     subscribedOn := default 0 (telegramService st) |}.

(** [GET]: the new wrapper is stored in the module's variable, then the
    stream is constructed, which runs [start]. *)
Definition GET (query : Request.Query) (now : Z) (st : State) : State :=
  let st1 := newService st in
  let chatId :=
    Request.or_else (Request.get_chatId query) (Request.SUPERGROUP_ID env) in
  let topicId :=
    parseInt (Request.or_else
                (Request.or_else_opt (Request.get_topicId query)
                                     (Request.TOPIC_ID env)) "1") in
  {| telegramService := telegramService st1;
     wrappers := wrappers st1;
     connections := connections st1 ++ [start chatId topicId now st1];
     disconnected := disconnected st1 |}.

(** The rest of [start], once [streamForumTopicMessages] has settled. *)
Definition settle (outcome : Js.result unit) (now : Z) (c : Connection)
  : Connection :=
  match setup c with
  | Pending =>
      match outcome with
      | Js.Return _ =>
          {| chatId := chatId c; topicId := topicId c;
             heartbeatInterval := Running;
             isStreamActive := isStreamActive c;
             controller := controller c;
             setup := Subscribed; subscribedOn := subscribedOn c |}
      | Js.Throw e =>
          let errorMsg :=
            error (match e with
                   | Js.ErrorObject m => m
                   | Js.OtherValue => "Unknown error"
                   end) now in
          {| chatId := chatId c; topicId := topicId c;
             heartbeatInterval := heartbeatInterval c;
             isStreamActive := isStreamActive c;
             controller :=
               match enqueue errorMsg (controller c) with
               | Js.Return k => {| chunks := chunks k; readable := false |}
               | Js.Throw _ => controller c
               end;
             setup := Failed; subscribedOn := subscribedOn c |}
      end
  | _ => c
  end.

(** The [onMessage] callback [start] hands to the wrapper. *)
Definition onMessage (msg : Client.ParsedMessage) (now : Z) (c : Connection)
  : Connection :=
  if negb (isStreamActive c) then c
  else
    match enqueue (message (topicId c) msg now) (controller c) with
    | Js.Return k =>
        {| chatId := chatId c; topicId := topicId c;
           heartbeatInterval := heartbeatInterval c;
           isStreamActive := isStreamActive c;
           controller := k;
           setup := setup c; subscribedOn := subscribedOn c |}
    | Js.Throw _ => c
    end.

(** The callback of the heartbeat interval. *)
Definition heartbeat (now : Z) (c : Connection) : Connection :=
  if negb (isStreamActive c) then
    {| chatId := chatId c; topicId := topicId c;
       heartbeatInterval := clearIfSet (heartbeatInterval c);
       isStreamActive := isStreamActive c;
       controller := controller c;
       setup := setup c; subscribedOn := subscribedOn c |}
  else
    match enqueue (ping now) (controller c) with
    | Js.Return k =>
        {| chatId := chatId c; topicId := topicId c;
           heartbeatInterval := heartbeatInterval c;
           isStreamActive := isStreamActive c;
           controller := k;
           setup := setup c; subscribedOn := subscribedOn c |}
    | Js.Throw _ =>
        {| chatId := chatId c; topicId := topicId c;
           heartbeatInterval := clearIfSet (heartbeatInterval c);
           isStreamActive := false;
           controller := controller c;
           setup := setup c; subscribedOn := subscribedOn c |}
    end.

(** What [cancel()] and the abort listener do to the variables of their
    own closure.  The runtime has closed a cancelled stream before it
    calls [cancel()]. *)
Definition teardown (cancelled : bool) (c : Connection) : Connection :=
  {| chatId := chatId c; topicId := topicId c;
     heartbeatInterval := clearIfSet (heartbeatInterval c);
     isStreamActive := false;
     controller :=
       if cancelled
       then {| chunks := chunks (controller c); readable := false |}
       else controller c;
     setup := setup c; subscribedOn := subscribedOn c |}.

(** [if (telegramService) telegramService.disconnect()]: the wrapper is
    the one the module's variable holds when the handler runs. *)
Definition disconnectCurrent (st : State) : list nat :=
  match telegramService st with
  | Some w => disconnected st ++ [w]
  | None => disconnected st
  end.

Definition update (conn : nat) (f : Connection -> Connection) (st : State)
  : State :=
  {| telegramService := telegramService st;
     wrappers := wrappers st;
     connections := alter f conn (connections st);
     disconnected := disconnected st |}.

Definition teardownOf (cancelled : bool) (conn : nat) (st : State)
  : State :=
  match connections st !! conn with
  | Some _ =>
      {| telegramService := telegramService st;
         wrappers := wrappers st;
         connections := alter (teardown cancelled) conn (connections st);
         disconnected := disconnectCurrent st |}
  | None => st
  end.

(** One turn of the event loop.  A callback runs only when it is
    registered: [onMessage] once the subscription is set up, the heartbeat
    while its interval runs. *)
Definition step (st : State) (ev : Event) : State :=
  match ev with
  | Get query now => GET query now st
  | Settle conn outcome now => update conn (settle outcome now) st
  | OnMessage conn msg now =>
      update conn
        (fun c => match setup c with
                  | Subscribed => onMessage msg now c
                  | _ => c
                  end) st
  | Heartbeat conn now =>
      update conn
        (fun c => match heartbeatInterval c with
                  | Running => heartbeat now c
                  | _ => c
                  end) st
  | Cancel conn => teardownOf true conn st
  | Abort conn => teardownOf false conn st
  end.

Definition run (st : State) (evs : list Event) : State :=
  foldl step st evs.

(** Every request gets a wrapper of its own: in a state the module can
    reach, the [i]-th invocation of [GET] subscribed on the [i]-th
    wrapper, and the module's variable holds the wrapper made last. *)
Definition ownWrappers (st : State) : Prop :=
  wrappers st = length (connections st)
  /\ (forall i c, connections st !! i = Some c -> subscribedOn c = i)
  /\ telegramService st
    = match wrappers st with 0 => None | S n => Some n end.

(** The [message] events enqueued so far on the channel of a connection. *)
Definition messageChunks (c : Connection) : list SseEvent :=
  filter (fun e => isMessageEvent e = true) (chunks (controller c)).

Definition messagesPushed (conn : nat) (st : State) : list SseEvent :=
  match connections st !! conn with
  | Some c => messageChunks c
  | None => []
  end.

(** A callback that leaves an inactive connection inactive and pushes no
    [message] event on it. *)
Definition silentWhenInactive (f : Connection -> Connection) : Prop :=
  forall c, isStreamActive c = false ->
    isStreamActive (f c) = false /\ messageChunks (f c) = messageChunks c.

End WithBuiltins.

End StreamRoute.

(** ** [src/app/api/telegram/messages/route.ts] *)

Module FetchRoute.

Section WithBuiltins.

Variable parseInt : string -> Js.number.
Variable env : Request.Env.

(** The object handed to [NextResponse.json]. *)
Inductive Body : Type :=
| success_true (topicId : Js.number) (count : nat)
               (messages : list Client.ParsedMessage)
| success_false (error details : string).

Record Response : Type := {
  status : nat;
  body : Body;
}.

(** The module's variable [telegramService] with the wrapper it refers
    to, and the library's clients. *)
Record State : Type := {
  telegramService : option Client.TelegramService;
  world : Client.World;
}.

Definition getTelegramService (st : State) : Client.TelegramService :=
  match telegramService st with
  | Some service => service
  | None => {| Client.client := None |}
  end.

(** The three values [GET] reads from the query and the environment. *)
Definition chatIdOf (query : Request.Query) : string :=
  Request.or_else (Request.get_chatId query) (Request.SUPERGROUP_ID env).

Definition topicIdOf (query : Request.Query) : Js.number :=
  parseInt (Request.or_else
              (Request.or_else_opt (Request.get_topicId query)
                                   (Request.TOPIC_ID env)) "1").

Definition limitOf (query : Request.Query) : Js.number :=
  parseInt (Request.or_else (Request.get_limit query) "100").

(** [service.getForumTopicMessages(chatId, topicId, limit)] on the
    module's wrapper. *)
Definition wrapperCall (up : Client.Upstream) (query : Request.Query)
    (st : State)
  : Client.World * Client.TelegramService
    * Js.result (list Client.ParsedMessage) :=
  Client.getForumTopicMessages up (world st) (getTelegramService st)
    (Client.ChatIdString (chatIdOf query)) (topicIdOf query) (limitOf query).

(** [GET]: the [try] block in the [result] monad, the [catch] block as the
    handler of [try_catch]. *)
Definition GET (up : Client.Upstream) (query : Request.Query) (st : State)
  : State * Js.result Response :=
  let topicId := topicIdOf query in
  let called := wrapperCall up query st in
  ({| telegramService := Some called.1.2; world := called.1.1 |},
   Js.try_catch
     (messages ← called.2;
      mret {| status := 200;
              body := success_true topicId (length messages) messages |})
     (fun error =>
        let errorMessage :=
          match error with
          | Js.ErrorObject m => m
          | Js.OtherValue => "Unknown error occurred"
          end in
        Js.Return {| status := 500;
                     body := success_false "Failed to fetch messages"
                                           errorMessage |})).

End WithBuiltins.

End FetchRoute.

(** ** The display component [MessageList] *)

Module MessageList.

Record Message : Type := {
  id : Z;
  text : string;
  date : Z;
  fromId : option string;
  replyToMsgId : option Z;
}.

(** [JSON.parse(event.data)], by its [type]. *)
Inductive StreamData : Type :=
| type_connected
| type_message (newMessage : Message)
| type_error (data_error : option string)
| type_ping
| type_other.

(** What [fetch('/api/telegram/messages')] and [response.json()] gave. *)
Inductive Fetched : Type :=
| fetch_success (data_messages : list Message)
| fetch_failure (data_error : option string)
| fetch_throws.

(** The component's state and refs, the document's visibility, and the
    number of [EventSource] objects made so far.  [reconnectTimeoutRef] is
    the delay of the pending reconnect timeout, if one is pending. *)
Record State : Type := {
  messages : list Message;
  loading : bool;
  connected : bool;
  error : option string;
  lastPing : Z;
  eventSourceRef : option nat;
  reconnectTimeoutRef : option Z;
  reconnectAttemptsRef : nat;
  isActiveRef : bool;
  visible : bool;
  eventSources : nat;
}.

Definition setMessages (f : list Message -> list Message) (st : State) :=
  {| messages := f (messages st); loading := loading st;
     connected := connected st; error := error st; lastPing := lastPing st;
     eventSourceRef := eventSourceRef st;
     reconnectTimeoutRef := reconnectTimeoutRef st;
     reconnectAttemptsRef := reconnectAttemptsRef st;
     isActiveRef := isActiveRef st; visible := visible st;
     eventSources := eventSources st |}.

Definition setLoading (b : bool) (st : State) :=
  {| messages := messages st; loading := b;
     connected := connected st; error := error st; lastPing := lastPing st;
     eventSourceRef := eventSourceRef st;
     reconnectTimeoutRef := reconnectTimeoutRef st;
     reconnectAttemptsRef := reconnectAttemptsRef st;
     isActiveRef := isActiveRef st; visible := visible st;
     eventSources := eventSources st |}.

Definition setConnected (b : bool) (st : State) :=
  {| messages := messages st; loading := loading st;
     connected := b; error := error st; lastPing := lastPing st;
     eventSourceRef := eventSourceRef st;
     reconnectTimeoutRef := reconnectTimeoutRef st;
     reconnectAttemptsRef := reconnectAttemptsRef st;
     isActiveRef := isActiveRef st; visible := visible st;
     eventSources := eventSources st |}.

Definition setError (e : option string) (st : State) :=
  {| messages := messages st; loading := loading st;
     connected := connected st; error := e; lastPing := lastPing st;
     eventSourceRef := eventSourceRef st;
     reconnectTimeoutRef := reconnectTimeoutRef st;
     reconnectAttemptsRef := reconnectAttemptsRef st;
     isActiveRef := isActiveRef st; visible := visible st;
     eventSources := eventSources st |}.

Definition setLastPing (now : Z) (st : State) :=
  {| messages := messages st; loading := loading st;
     connected := connected st; error := error st; lastPing := now;
     eventSourceRef := eventSourceRef st;
     reconnectTimeoutRef := reconnectTimeoutRef st;
     reconnectAttemptsRef := reconnectAttemptsRef st;
     isActiveRef := isActiveRef st; visible := visible st;
     eventSources := eventSources st |}.

Definition setEventSource (es : option nat) (made : nat) (st : State) :=
  {| messages := messages st; loading := loading st;
     connected := connected st; error := error st; lastPing := lastPing st;
     eventSourceRef := es;
     reconnectTimeoutRef := reconnectTimeoutRef st;
     reconnectAttemptsRef := reconnectAttemptsRef st;
     isActiveRef := isActiveRef st; visible := visible st;
     eventSources := made |}.

Definition setReconnectTimeout (t : option Z) (st : State) :=
  {| messages := messages st; loading := loading st;
     connected := connected st; error := error st; lastPing := lastPing st;
     eventSourceRef := eventSourceRef st;
     reconnectTimeoutRef := t;
     reconnectAttemptsRef := reconnectAttemptsRef st;
     isActiveRef := isActiveRef st; visible := visible st;
     eventSources := eventSources st |}.

Definition setReconnectAttempts (n : nat) (st : State) :=
  {| messages := messages st; loading := loading st;
     connected := connected st; error := error st; lastPing := lastPing st;
     eventSourceRef := eventSourceRef st;
     reconnectTimeoutRef := reconnectTimeoutRef st;
     reconnectAttemptsRef := n;
     isActiveRef := isActiveRef st; visible := visible st;
     eventSources := eventSources st |}.

Definition setIsActive (b : bool) (st : State) :=
  {| messages := messages st; loading := loading st;
     connected := connected st; error := error st; lastPing := lastPing st;
     eventSourceRef := eventSourceRef st;
     reconnectTimeoutRef := reconnectTimeoutRef st;
     reconnectAttemptsRef := reconnectAttemptsRef st;
     isActiveRef := b; visible := visible st;
     eventSources := eventSources st |}.

Definition setVisible (b : bool) (st : State) :=
  {| messages := messages st; loading := loading st;
     connected := connected st; error := error st; lastPing := lastPing st;
     eventSourceRef := eventSourceRef st;
     reconnectTimeoutRef := reconnectTimeoutRef st;
     reconnectAttemptsRef := reconnectAttemptsRef st;
     isActiveRef := isActiveRef st; visible := b;
     eventSources := eventSources st |}.

(** The state of a freshly mounted component in a visible tab, its first
    [fetchMessages] under way. *)
Definition initial (now : Z) : State :=
  {| messages := []; loading := true; connected := false; error := None;
     lastPing := now; eventSourceRef := None; reconnectTimeoutRef := None;
     reconnectAttemptsRef := 0; isActiveRef := true; visible := true;
     eventSources := 0 |}.

(** The updater the [message] case passes to [setMessages]. *)
Definition addMessage (newMessage : Message) (prev : list Message)
  : list Message :=
  if existsb (fun m => Z.eqb (id m) (id newMessage)) prev
  then prev
  else take 100 (newMessage :: prev).

(** [Math.min(1000 * Math.pow(2, attempts), 30000)].  The product is
    computed exactly by the doubles of the source as long as it is finite,
    and the minimum is 30000 from there on. *)
Definition backoffDelay (attempts : nat) : Z :=
  Z.min (1000 * 2 ^ Z.of_nat attempts) 30000.

(** [setupEventStream]: a source still referenced is closed, a new
    [EventSource] is made and stored in the ref. *)
Definition setupEventStream (st : State) : State :=
  setEventSource (Some (eventSources st)) (S (eventSources st)) st.

(** [reconnect]: a pending timeout is cleared, the source is closed and
    the ref emptied, a new timeout is set. *)
Definition reconnect (st : State) : State :=
  let st1 := setReconnectTimeout None st in
  let st2 := setEventSource None (eventSources st1) st1 in
  setReconnectTimeout (Some (backoffDelay (reconnectAttemptsRef st2))) st2.

(** The callback of the timeout that [reconnect] sets. *)
Definition reconnectTimeout (st : State) : State :=
  if isActiveRef st && visible st then
    let st1 := setupEventStream st in
    setReconnectAttempts (S (reconnectAttemptsRef st1)) st1
  else st.

(** [eventSource.onopen] *)
Definition onopen (st : State) : State :=
  setReconnectAttempts 0 st.

(** [eventSource.onmessage]; [None] is a payload [JSON.parse] rejects. *)
Definition onmessage (data : option StreamData) (now : Z) (st : State)
  : State :=
  match data with
  | Some type_connected =>
      setLastPing now (setError None (setConnected true st))
  | Some (type_message newMessage) =>
      setMessages (addMessage newMessage) st
  | Some (type_error data_error) =>
      let shown :=
        match data_error with
        | Some e => if String.eqb e "" then "Stream error occurred" else e
        | None => "Stream error occurred"
        end in
      setConnected false (setError (Some shown) st)
  | Some type_ping => setLastPing now st
  | Some type_other => st
  | None => st
  end.

(** [eventSource.onerror] *)
Definition onerror (st : State) : State :=
  let st1 := setEventSource None (eventSources st) (setConnected false st) in
  if isActiveRef st1 && visible st1 then reconnect st1 else st1.

(** The callback of the 10-second [checkConnection] interval. *)
Definition checkConnection (now : Z) (st : State) : State :=
  if Z.ltb 45000 (now - lastPing st) && connected st
  then reconnect (setConnected false st)
  else st.

(** [handleVisibilityChange], after the document's visibility changed. *)
Definition handleVisibilityChange (nowVisible : bool) (st : State) : State :=
  let st1 := setVisible nowVisible st in
  if nowVisible && negb (bool_decide (is_Some (eventSourceRef st1)))
  then setupEventStream st1
  else st1.

(** [fetchMessages] up to its first [await] ... *)
Definition fetchMessages_begin (st : State) : State :=
  setError None st.

(** ... and from the answer to the end of its [finally]. *)
Definition fetchMessages_end (outcome : Fetched) (st : State) : State :=
  setLoading false
    match outcome with
    | fetch_success data_messages => setMessages (fun _ => data_messages) st
    | fetch_failure data_error =>
        setError (Some match data_error with
                       | Some e => if String.eqb e ""
                                   then "Failed to fetch messages" else e
                       | None => "Failed to fetch messages"
                       end) st
    | fetch_throws => setError (Some "Failed to connect to server") st
    end.

(** The cleanup of the mounting effect. *)
Definition unmount (st : State) : State :=
  setEventSource None (eventSources st)
    (setReconnectTimeout None (setIsActive false st)).

Inductive Event : Type :=
| EsOpen
| EsMessage (data : option StreamData) (now : Z)
| EsError
| ReconnectTimeout
| CheckConnection (now : Z)
| VisibilityChange (nowVisible : bool)
| MountTimeout
| FetchDone (outcome : Fetched)
| Refresh
| Unmount.

(** One turn of the browser's event loop.  The reconnect timeout fires
    only while it is pending, and is no longer pending once it fired. *)
Definition step (st : State) (ev : Event) : State :=
  match ev with
  | EsOpen => onopen st
  | EsMessage data now => onmessage data now st
  | EsError => onerror st
  | ReconnectTimeout =>
      match reconnectTimeoutRef st with
      | Some _ => reconnectTimeout (setReconnectTimeout None st)
      | None => st
      end
  | CheckConnection now => checkConnection now st
  | VisibilityChange nowVisible => handleVisibilityChange nowVisible st
  | MountTimeout => if visible st then setupEventStream st else st
  | FetchDone outcome => fetchMessages_end outcome st
  | Refresh => reconnect (fetchMessages_begin st)
  | Unmount => unmount st
  end.

Definition run (st : State) (evs : list Event) : State :=
  foldl step st evs.

(** The states the component goes through, one per event. *)
Fixpoint states (st : State) (evs : list Event) : list State :=
  match evs with
  | [] => []
  | ev :: evs' => step st ev :: states (step st ev) evs'
  end.

(** [N] channel errors in a row, each but the last followed by the
    reconnect attempt its timeout makes, and no [open] in between. *)
Fixpoint failedAttempts (N : nat) : list Event :=
  match N with
  | 0 => []
  | 1 => [EsError]
  | S n => EsError :: ReconnectTimeout :: failedAttempts n
  end.

(** The list of the display component is well formed: no identifier
    twice, at most 100 entries. *)
Definition bounded (l : list Message) : Prop :=
  NoDup (id <$> l) ∧ (length l ≤ 100)%nat.

End MessageList.

(** ** The specification's wording, where it is compared with the code *)

Module Spec.

(** [s] with a leading [prefix] removed, and [s] itself when it does not
    start with [prefix]. *)
Definition withoutLeading (prefix s : string) : string :=
  if String.prefix prefix s
  then String.substring (String.length prefix)
                        (String.length s - String.length prefix) s
  else s.

(** "A raw message is treated as belonging to the target chat if and only
    if its extracted peer identifier string equals chatId converted to a
    string, or equals chatId's string form with a leading -100 prefix
    removed." *)
Definition chatFilter (chatId : Client.ChatId) (message : Api.Message)
  : Prop :=
  Client.isTargetChat chatId message = true
  ↔ Client.msgChatId message = Client.chatId_toString chatId
    ∨ Client.msgChatId message
      = withoutLeading "-100" (Client.chatId_toString chatId).

(** "The thread root of the message is [topicId]." *)
Definition hasThreadRoot (topicId : Js.number) (message : Api.Message)
  : Prop :=
  ∃ t, Client.threadRoot message = Some t ∧ topicId = Js.Num t.

(** The message is handed to [onMessage]. *)
Definition accepted (TOPIC_ID : Js.number) (chatId : Client.ChatId)
    (topicId : Js.number) (message : Api.Message) : Prop :=
  is_Some (Client.newMessageHandler TOPIC_ID chatId topicId
             (Some (Api.IsMessage message))).

(** "When the subscribed topicId equals the configured general-topic id,
    the filter accepts a message of the target chat if and only if the
    message has no reply-thread metadata or its thread root is the general
    topic." *)
Definition generalTopicFilter (TOPIC_ID : Js.number)
    (chatId : Client.ChatId) (topicId : Js.number) (message : Api.Message)
  : Prop :=
  Js.number_eq topicId TOPIC_ID = true →
  Client.isTargetChat chatId message = true →
  (accepted TOPIC_ID chatId topicId message
   ↔ Api.replyTo message = None ∨ hasThreadRoot TOPIC_ID message).



(** "After N consecutive channel errors with no successful open": the
    events are channel errors and reconnect timeouts only, [N] of them
    channel errors, the last event one of these. *)
Definition isChannelError (ev : MessageList.Event) : bool :=
  match ev with
  | MessageList.EsError => true
  | _ => false
  end.

Definition isReconnectTimeout (ev : MessageList.Event) : bool :=
  match ev with
  | MessageList.ReconnectTimeout => true
  | _ => false
  end.

Definition errorsInARow (N : nat) (evs : list MessageList.Event) : Prop :=
  Forall (fun ev => isChannelError ev || isReconnectTimeout ev = true) evs
  ∧ length (filter (fun ev => isChannelError ev = true) evs) = N
  ∧ isChannelError <$> last evs = Some true.

(** "... the delay the client component waits before the Nth reconnect
    attempt equals min(1000 × 2^(N-1), 30000) milliseconds", from a state
    whose attempt counter is zero. *)
Definition backoffAfterErrors (st : MessageList.State) (N : nat)
    (evs : list MessageList.Event) : Prop :=
  (1 ≤ N)%nat →
  MessageList.reconnectAttemptsRef st = 0 →
  errorsInARow N evs →
  MessageList.reconnectTimeoutRef (MessageList.run st evs)
  = Some (Z.min (1000 * 2 ^ (Z.of_nat N - 1)) 30000).

End Spec.

(** ** Sample data *)

Module Sample.

(** A message of channel 123 without a reply header. *)
Definition channel123 : Api.Message :=
  {| Api.id := 1; Api.message := Some "hi"; Api.date := 0;
     Api.fromId := None; Api.peerId := Some (Api.PeerChannel 123);
     Api.replyTo := None |}.

(** The supergroup of the repository's script, with the "-100" prefix. *)
Definition supergroup : Client.ChatId :=
  Client.ChatIdString "-1002731547761".

(** A message of that supergroup that replies to message 40 inside forum
    topic 7: its reply header names the thread root 7 and carries the
    [forumTopic] flag. *)
Definition replyInTopic7 : Api.Message :=
  {| Api.id := 42; Api.message := Some "hello"; Api.date := 1700000000;
     Api.fromId := Some (Api.PeerUser 5);
     Api.peerId := Some (Api.PeerChannel 2731547761);
     Api.replyTo :=
       Some {| Api.replyToTopId := Js.Present 7%Z;
               Api.forumTopic := Js.Present true;
               Api.replyToMsgId := Js.Present 40%Z |} |}.

(** A platform whose chat is not a forum: the forum-topics call is
    rejected, everything else answers. *)
Definition forumless : Client.Upstream :=
  {| Client.transport := Js.Return ();
     Client.getEntity := fun _ => Js.Return 2731547761%Z;
     Client.GetReplies := fun _ _ _ => Js.Return (Some []);
     Client.GetForumTopics := fun _ _ =>
       Js.Throw (Js.ErrorObject
         "400: CHANNEL_FORUM_MISSING (caused by channels.GetForumTopics)");
     Client.GetHistory := fun _ _ _ => Js.Return (Some []) |}.

(** A request without query parameters. *)
Definition plainQuery : Request.Query :=
  {| Request.get_chatId := None; Request.get_topicId := None;
     Request.get_limit := None |}.

(** A parsed message as the wrapper hands it to [onMessage]. *)
Definition parsedHello : Client.ParsedMessage :=
  {| Client.id := 42; Client.text := "hello"; Client.date := 1700000000;
     Client.fromId := Some "5"; Client.replyToMsgId := None;
     Client.topicId := None |}.

(** Two messages as the display component builds them from [message]
    events. *)
Definition shown1 : MessageList.Message :=
  {| MessageList.id := 1; MessageList.text := "one";
     MessageList.date := 1700000000; MessageList.fromId := Some "5";
     MessageList.replyToMsgId := None |}.

Definition shown2 : MessageList.Message :=
  {| MessageList.id := 2; MessageList.text := "two";
     MessageList.date := 1700000001; MessageList.fromId := None;
     MessageList.replyToMsgId := Some 1%Z |}.

(** A wrapper that has not connected yet, in a world without clients. *)
Definition unconnected : Client.TelegramService :=
  {| Client.client := None |}.

Definition emptyWorld : Client.World := {| Client.clients := [] |}.

End Sample.

(** ** Further sample data and observations *)

Module Fixtures.

(** The first post of forum topic 7 as the library builds it: every
    property of the reply header is there, [replyToTopId] with the value
    [undefined]; the post is flagged [forumTopic] and replies to the
    topic's root message. *)
Definition firstPostOfTopic7 : Api.Message :=
  {| Api.id := 43; Api.message := Some "first"; Api.date := 1700000002;
     Api.fromId := Some (Api.PeerUser 5);
     Api.peerId := Some (Api.PeerChannel 2731547761);
     Api.replyTo :=
       Some {| Api.replyToTopId := Js.Undefined;
               Api.forumTopic := Js.Present true;
               Api.replyToMsgId := Js.Present 7%Z |} |}.

(** What [parseMessage] makes of [Sample.replyInTopic7]. *)
Definition parsedReply : Client.ParsedMessage :=
  {| Client.id := 42; Client.text := "hello"; Client.date := 1700000000;
     Client.fromId := Some "5"; Client.replyToMsgId := Some 40%Z;
     Client.topicId := Some 7%Z |}.

(** A message without a peer. *)
Definition noPeer : Api.Message :=
  {| Api.id := 4; Api.message := None; Api.date := 0;
     Api.fromId := None; Api.peerId := None; Api.replyTo := None |}.

(** An environment, and a [parseInt] that reads every string as 1. *)
Definition env : Request.Env :=
  {| Request.SUPERGROUP_ID := "-1002731547761";
     Request.TOPIC_ID := Some "1" |}.

Definition parseOne (s : string) : Js.number := Js.Num 1.

(** The fetch route's module before its first request. *)
Definition freshModule : FetchRoute.State :=
  {| FetchRoute.telegramService := None;
     FetchRoute.world := Sample.emptyWorld |}.

(** A platform whose forum has the topics 1 and 7 and a deleted topic. *)
Definition forum : Client.Upstream :=
  {| Client.transport := Js.Return ();
     Client.getEntity := fun _ => Js.Return 2731547761%Z;
     Client.GetReplies := fun _ _ _ => Js.Return (Some []);
     Client.GetForumTopics := fun _ _ =>
       Js.Return (Some [
         Api.IsForumTopic
           {| Api.topic_id := 1; Api.title := "General";
              Api.unreadCount := None; Api.topMessage := 42;
              Api.topic_date := 1700000000; Api.closed := None;
              Api.pinned := Some true |};
         Api.IsForumTopicDeleted 5;
         Api.IsForumTopic
           {| Api.topic_id := 7; Api.title := "News";
              Api.unreadCount := Some 3%Z; Api.topMessage := 43;
              Api.topic_date := 1700000001; Api.closed := Some true;
              Api.pinned := None |}]);
     Client.GetHistory := fun _ _ _ => Js.Return (Some []) |}.

(** A full list of the display component, ids 100 down to 1, and a
    message that is not in it. *)
Definition shown (i : Z) : MessageList.Message :=
  {| MessageList.id := i; MessageList.text := "text";
     MessageList.date := 1700000000 + i; MessageList.fromId := None;
     MessageList.replyToMsgId := None |}.

Definition fullList : list MessageList.Message :=
  (fun n => shown (100 - Z.of_nat n)) <$> seq 0 100.

(** A connected component whose last ping came at time 0. *)
Definition listening : MessageList.State :=
  MessageList.step
    (MessageList.step (MessageList.initial 0) MessageList.MountTimeout)
    (MessageList.EsMessage (Some MessageList.type_connected) 0).

(** A world with one connected client, held by a wrapper. *)
Definition oneClient : Client.World := {| Client.clients := [true] |}.

Definition holder : Client.TelegramService := {| Client.client := Some 0 |}.

(** A platform that answers every call; the topic has two messages and
    an emptied slot between them. *)
Definition answering : Client.Upstream :=
  {| Client.transport := Js.Return ();
     Client.getEntity := fun _ => Js.Return 2731547761%Z;
     Client.GetReplies := fun _ _ _ =>
       Js.Return (Some [Api.IsMessage Sample.replyInTopic7;
                        Api.IsMessageEmpty 41;
                        Api.IsMessage firstPostOfTopic7]);
     Client.GetForumTopics := fun _ _ => Js.Return (Some []);
     Client.GetHistory := fun _ _ _ => Js.Return (Some []) |}.



(** The connected component of [listening] after its tab was hidden. *)
Definition hiddenTab : MessageList.State :=
  MessageList.step listening (MessageList.VisibilityChange false).

End Fixtures.

Module Derived.

(** [msg] is an [Api.MessageEmpty]. *)
Definition isEmptyMessage (msg : Api.TypeMessage) : bool :=
  match msg with
  | Api.IsMessageEmpty _ => true
  | _ => false
  end.

(** The id of a topic that is not deleted. *)
Definition liveTopicId (topic : Api.TypeForumTopic) : option Z :=
  match topic with
  | Api.IsForumTopic t => Some (Api.topic_id t)
  | Api.IsForumTopicDeleted _ => None
  end.

(** What one turn of the stream route's event loop can do to the
    variables of a connection: nothing, or run one of its callbacks. *)
Inductive evolves (c : StreamRoute.Connection)
  : StreamRoute.Connection -> Prop :=
| evolves_same : evolves c c
| evolves_settle outcome now :
    evolves c (StreamRoute.settle outcome now c)
| evolves_onMessage msg now :
    StreamRoute.setup c = StreamRoute.Subscribed ->
    evolves c (StreamRoute.onMessage msg now c)
| evolves_heartbeat now :
    StreamRoute.heartbeatInterval c = StreamRoute.Running ->
    evolves c (StreamRoute.heartbeat now c)
| evolves_teardown cancelled :
    evolves c (StreamRoute.teardown cancelled c).

(** The connection an event is addressed to. *)
Definition target (ev : StreamRoute.Event) : option nat :=
  match ev with
  | StreamRoute.Get _ _ => None
  | StreamRoute.Settle conn _ _ => Some conn
  | StreamRoute.OnMessage conn _ _ => Some conn
  | StreamRoute.Heartbeat conn _ => Some conn
  | StreamRoute.Cancel conn => Some conn
  | StreamRoute.Abort conn => Some conn
  end.

Definition isErrorEvent (e : StreamRoute.SseEvent) : bool :=
  match e with
  | StreamRoute.error _ _ => true
  | _ => false
  end.

(** The chunks of a connection's channel other than [error] events. *)
Definition otherChunks (c : StreamRoute.Connection)
  : list StreamRoute.SseEvent :=
  filter (fun e => isErrorEvent e = false)
         (StreamRoute.chunks (StreamRoute.controller c)).

(** The channel of the connection starts with its [connected] event. *)
Definition greeted (c : StreamRoute.Connection) : Prop :=
  exists t rest,
    StreamRoute.chunks (StreamRoute.controller c)
    = StreamRoute.connected (StreamRoute.topicId c) (StreamRoute.chatId c) t
      :: rest.

(** The events that call [setupEventStream] without asking whether the
    component is mounted: the mount timeout and the visibility change,
    whose timer and listener the cleanups of their effects remove. *)
Definition setsUpUnasked (ev : MessageList.Event) : bool :=
  match ev with
  | MessageList.MountTimeout => true
  | MessageList.VisibilityChange _ => true
  | _ => false
  end.

End Derived.

(** * Properties *)

(** ** Strings *)

Section Strings.

Lemma substring_all (s : string) :
  String.substring 0 (String.length s) s = s.
Proof.
  induction s as [|c s IH]; simpl; [reflexivity|]. by rewrite IH.
Qed.

(** On a string that starts with the pattern, [replace] cuts the
    pattern off the front. *)
Lemma replace_leading (pat rest : string) :
  Js.replace pat "" (pat +:+ rest) = rest.
Proof.
  assert (Hpre : String.prefix pat (pat +:+ rest) = true).
  { induction pat as [|c pat IH]; simpl.
    - by destruct rest.
    - destruct (Ascii.ascii_dec c c); [exact IH | congruence]. }
  assert (Hcut : ∀ p r n, n = String.length r →
            String.substring (String.length p) n (p +:+ r) = r).
  { intros p; induction p as [|c p IH]; intros r n ->; simpl.
    - apply substring_all.
    - by apply IH. }
  assert (Hlen : (String.length (pat +:+ rest) - String.length pat
                  = String.length rest)%nat).
  { clear. induction pat as [|c pat IH].
    - change ("" +:+ rest) with rest. simpl. lia.
    - change (String c pat +:+ rest) with (String c (pat +:+ rest)).
      simpl. exact IH. }
  destruct pat as [|c pat]; simpl.
  - destruct rest; simpl; [reflexivity|].
    by rewrite substring_all.
  - simpl in Hpre. destruct (Ascii.ascii_dec c c); [|congruence].
    rewrite Hpre. simpl in Hlen. rewrite Hlen.
    by apply Hcut.
Qed.

End Strings.

(** ** The chat filter of the subscription *)

Section ChatFilter.

Import Client.

(** The message is kept exactly when its peer string is the chat id's
    string or that string after [replace('-100', '')]. *)
Lemma isTargetChat_iff (chatId : ChatId) (message : Api.Message) :
  isTargetChat chatId message = true
  ↔ msgChatId message = chatId_toString chatId
    ∨ msgChatId message = Js.replace "-100" "" (chatId_toString chatId).
Proof.
  unfold isTargetChat. rewrite orb_true_iff, !String.eqb_eq. reflexivity.
Qed.

(** C10, as amended.  A raw message is treated as belonging to the target
    chat if and only if its extracted peer identifier string equals the
    chat id's string form, or equals that string form with the leftmost
    occurrence of "-100" removed, wherever it occurs; when the string form
    starts with "-100" this is the string without that prefix, so a chat id
    supplied with the supergroup prefix matches messages whose peer id
    lacks it. *)
Theorem chat_filter_leftmost_occurrence
    (chatId : ChatId) (message : Api.Message) :
  (isTargetChat chatId message = true
   ↔ msgChatId message = chatId_toString chatId
     ∨ msgChatId message = Js.replace "-100" "" (chatId_toString chatId))
  ∧ (∀ rest, chatId_toString chatId = "-100" +:+ rest →
       Js.replace "-100" "" (chatId_toString chatId) = rest
       ∧ (msgChatId message = rest → isTargetChat chatId message = true)).
Proof.
  split; [apply isTargetChat_iff|].
  intros rest Hrest.
  assert (Hcut : Js.replace "-100" "" (chatId_toString chatId) = rest).
  { rewrite Hrest. apply replace_leading. }
  split; [exact Hcut|].
  intros Hpeer. apply isTargetChat_iff. right. congruence.
Qed.

(** C10, as stated, fails: with the chat id "12-1003" the filter keeps a
    message of peer "123", which is neither the chat id's string nor that
    string without a leading "-100". *)
Lemma chat_filter_not_leading_only :
  ¬ Spec.chatFilter (ChatIdString "12-1003") Sample.channel123.
Proof.
  unfold Spec.chatFilter. intros [Hkeep _].
  assert (Hyes : isTargetChat (ChatIdString "12-1003") Sample.channel123
                 = true)
    by reflexivity.
  destruct (Hkeep Hyes) as [H|H]; vm_compute in H; discriminate H.
Qed.

End ChatFilter.

(** ** The topic filter of the subscription *)

Section TopicFilter.

Import Client.

(** What the handler does with a message of the target chat. *)
Lemma newMessageHandler_target TOPIC_ID chatId topicId message :
  isTargetChat chatId message = true →
  newMessageHandler TOPIC_ID chatId topicId (Some (Api.IsMessage message))
  = if (if Js.number_eq topicId TOPIC_ID
        then generalTopicTest message
        else otherTopicTest topicId message)
    then parseMessage (Api.IsMessage message)
    else None.
Proof.
  intros Hchat. unfold newMessageHandler. rewrite Hchat.
  by destruct (Js.number_eq topicId TOPIC_ID), (generalTopicTest message),
       (otherTopicTest topicId message).
Qed.

(** The handler never hands over a message of another chat. *)
Lemma newMessageHandler_other_chat TOPIC_ID chatId topicId message :
  isTargetChat chatId message = false →
  newMessageHandler TOPIC_ID chatId topicId (Some (Api.IsMessage message))
  = None.
Proof. intros Hchat. unfold newMessageHandler. by rewrite Hchat. Qed.

(** The general branch, spelled out: no reply header, or a header whose
    [replyToTopId] is 1, or a header flagged [forumTopic]. *)
Lemma generalTopicTest_iff message :
  generalTopicTest message = true
  ↔ Api.replyTo message = None
    ∨ ∃ r, Api.replyTo message = Some r
           ∧ (Api.replyToTopId r = Js.Present 1%Z
              ∨ Api.forumTopic r = Js.Present true).
Proof.
  unfold generalTopicTest.
  destruct (Api.replyTo message) as [r|]; [|naive_solver].
  rewrite orb_true_iff, !andb_true_iff. split.
  - intros [[_ H]|[_ H]]; right; exists r; (split; [done|]).
    + left. unfold Js.strict_eq_num in H.
      destruct (Api.replyToTopId r) as [| |v]; simpl in H; try done.
      apply Z.eqb_eq in H. by subst.
    + right. unfold Js.truthy in H.
      destruct (Api.forumTopic r) as [| |[]]; simpl in H; done.
  - intros [?|(r' & [= <-] & [H|H])]; [done| |]; rewrite H; [left|right];
      done.
Qed.

(** With the general topic subscribed, a message of the target chat
    without a reply header is always handed over. *)
Lemma general_topic_accepts_without_reply TOPIC_ID chatId topicId message :
  Js.number_eq topicId TOPIC_ID = true →
  isTargetChat chatId message = true →
  Api.replyTo message = None →
  Spec.accepted TOPIC_ID chatId topicId message.
Proof.
  intros Hgen Hchat Hreply. unfold Spec.accepted.
  rewrite newMessageHandler_target by done. rewrite Hgen.
  unfold generalTopicTest. rewrite Hreply. by eexists.
Qed.

(** C1.  The general branch hands over a reply inside forum topic 7: with
    the general topic 1 configured and subscribed, the message is parsed
    and passed on with thread root 7, so the equivalence of the claim does
    not hold for it. *)
Theorem general_topic_accepts_foreign_thread :
  newMessageHandler (Js.Num 1) Sample.supergroup (Js.Num 1)
    (Some (Api.IsMessage Sample.replyInTopic7))
  = Some {| id := 42; text := "hello"; date := 1700000000;
            fromId := Some "5"; replyToMsgId := Some 40%Z;
            topicId := Some 7%Z |}
  ∧ threadRoot Sample.replyInTopic7 = Some 7%Z
  ∧ ¬ Spec.generalTopicFilter (Js.Num 1) Sample.supergroup (Js.Num 1)
        Sample.replyInTopic7.
Proof.
  split; [by vm_compute|]. split; [reflexivity|].
  intros Hclaim.
  destruct (Hclaim eq_refl eq_refl) as [Hroot _].
  destruct Hroot as [Hnone|(t & Ht & Hgen)].
  - by eexists.
  - discriminate Hnone.
  - vm_compute in Ht. congruence.
Qed.

(** C2.  When the subscribed topic is not the general topic, a message is
    handed to [onMessage] only if its thread root is exactly the subscribed
    topic (and the record handed over carries that topic), and every
    message whose thread root differs from it is rejected. *)
Theorem other_topic_exact_thread_root TOPIC_ID chatId topicId message :
  Js.number_eq topicId TOPIC_ID = false →
  (∀ parsed,
     newMessageHandler TOPIC_ID chatId topicId
       (Some (Api.IsMessage message)) = Some parsed →
     Spec.hasThreadRoot topicId message
     ∧ Js.Num <$> Client.topicId parsed = Some topicId)
  ∧ (¬ Spec.hasThreadRoot topicId message →
     newMessageHandler TOPIC_ID chatId topicId
       (Some (Api.IsMessage message)) = None).
Proof.
  intros Hother.
  assert (Hkey : ∀ parsed,
     newMessageHandler TOPIC_ID chatId topicId
       (Some (Api.IsMessage message)) = Some parsed →
     Spec.hasThreadRoot topicId message
     ∧ Js.Num <$> Client.topicId parsed = Some topicId).
  { intros parsed. unfold newMessageHandler.
    destruct (isTargetChat chatId message); [|done].
    rewrite Hother. unfold otherTopicTest.
    destruct (Api.replyTo message) as [r|] eqn:Hr; [|done].
    destruct (Js.has_key (Api.replyToTopId r)) eqn:Hk; [|done].
    simpl. unfold Js.strict_eq_num.
    destruct (Js.read (Api.replyToTopId r)) as [v|] eqn:Hv; [|done].
    destruct topicId as [t|]; [|done]. simpl.
    destruct (Z.eqb_spec v t) as [->|]; [|done].
    intros [= <-].
    assert (Hroot : threadRoot message = Some t).
    { unfold threadRoot. by rewrite Hr, Hk. }
    split; [by exists t|]. simpl. by rewrite Hroot. }
  split; [exact Hkey|].
  intros Hnot.
  destruct (newMessageHandler _ _ _ _) as [parsed|] eqn:Hh; [|done].
  destruct (Hkey parsed eq_refl) as [Hroot _]. contradiction.
Qed.

Lemma other_topic_exact_thread_root_witness :
  Js.number_eq (Js.Num 7) (Js.Num 1) = false
  ∧ (∀ parsed,
       newMessageHandler (Js.Num 1) Sample.supergroup (Js.Num 7)
         (Some (Api.IsMessage Sample.replyInTopic7)) = Some parsed →
       Spec.hasThreadRoot (Js.Num 7) Sample.replyInTopic7
       ∧ Js.Num <$> Client.topicId parsed = Some (Js.Num 7))
  ∧ (¬ Spec.hasThreadRoot (Js.Num 7) Sample.replyInTopic7 →
     newMessageHandler (Js.Num 1) Sample.supergroup (Js.Num 7)
       (Some (Api.IsMessage Sample.replyInTopic7)) = None).
Proof.
  split; [reflexivity|].
  apply (other_topic_exact_thread_root (Js.Num 1) Sample.supergroup
           (Js.Num 7) Sample.replyInTopic7).
  reflexivity.
Defined.

End TopicFilter.

(** ** The connection handle *)

Section Connect.

Import Client.

Lemma connect_live transport w this c :
  client this = Some c → isConnected w c = true →
  connect transport w this = (w, this, Js.Return c).
Proof. intros Hc Hlive. unfold connect. by rewrite Hc, Hlive. Qed.

(** Without a live handle, [connect] makes a new client, the next one of
    the world, stores it in [this.client], and returns it when the
    transport connects. *)
Lemma connect_fresh transport w this :
  holdsLiveHandle w this = false →
  connect transport w this
  = match transport with
    | Js.Return _ =>
        ({| clients :=
              <[length (clients w) := true]> (clients w ++ [false])%list |},
         {| client := Some (length (clients w)) |},
         Js.Return (length (clients w)))
    | Js.Throw e =>
        ({| clients := clients w ++ [false] |},
         {| client := Some (length (clients w)) |}, Js.Throw e)
    end.
Proof.
  unfold holdsLiveHandle, connect.
  destruct (client this) as [c|]; [intros ->|]; done.
Qed.

Lemma isConnected_fresh (l : list bool) :
  isConnected {| clients := <[length l := true]> (l ++ [false])%list |}
              (length l)
  = true.
Proof.
  unfold isConnected. simpl.
  rewrite list_lookup_insert_eq; [done|]. rewrite length_app. simpl. lia.
Qed.

(** C9.  [connect()] is idempotent.  A wrapper that holds a live handle
    returns that handle and changes nothing: no client is made.  Otherwise
    a new client is made and stored, and it is the handle returned once
    the transport connects.  After a [connect()] that returned, a further
    [connect()] returns the same handle and leaves wrapper and clients as
    they are, whatever the transport would do. *)
Theorem connect_idempotent transport w this :
  (∀ c, client this = Some c → isConnected w c = true →
     connect transport w this = (w, this, Js.Return c))
  ∧ (holdsLiveHandle w this = false →
     length (clients (connect transport w this).1.1)
     = S (length (clients w))
     ∧ client (connect transport w this).1.2 = Some (length (clients w))
     ∧ (∀ u, transport = Js.Return u →
          (connect transport w this).2 = Js.Return (length (clients w))
          ∧ isConnected (connect transport w this).1.1 (length (clients w))
            = true)
     ∧ (∀ e, transport = Js.Throw e →
          (connect transport w this).2 = Js.Throw e))
  ∧ (∀ c transport',
       (connect transport w this).2 = Js.Return c →
       connect transport' (connect transport w this).1.1
                          (connect transport w this).1.2
       = connect transport w this).
Proof.
  split; [apply connect_live|]. split.
  - intros Hnot. rewrite (connect_fresh _ _ _ Hnot).
    destruct transport as [u|e]; simpl.
    + rewrite length_insert, length_app. simpl.
      split; [lia|]. split; [done|]. split.
      * intros _ _. split; [done | apply isConnected_fresh].
      * intros e [=].
    + rewrite length_app. simpl.
      split; [lia|]. split; [done|]. split.
      * intros u [=].
      * by intros e' [= ->].
  - intros c transport' Hret.
    destruct (holdsLiveHandle w this) eqn:Hlive.
    + unfold holdsLiveHandle in Hlive.
      destruct (client this) as [c0|] eqn:Hc; [|done].
      rewrite (connect_live transport w this c0 Hc Hlive). simpl.
      by apply connect_live.
    + rewrite (connect_fresh _ _ _ Hlive) in *.
      destruct transport as [u|e]; [|done]. simpl.
      apply connect_live; [done|]. apply isConnected_fresh.
Qed.

End Connect.

(** ** Listing the topics of a chat that is not a forum *)

Section ForumMissing.

Import Client.






End ForumMissing.

(** ** The fetch endpoint *)

Section FetchEndpoint.

Import FetchRoute.

Variable parseInt : string → Js.number.
Variable env : Request.Env.

(** C6.  The handler of the fetch endpoint always returns a response: no
    exception escapes it.  When the wrapper call returns a list, the
    response has status 200 and the body [{success: true, topicId, count,
    messages}] with [count] the length of [messages]; when the wrapper
    call throws, whatever it throws, the response has status 500 and the
    body [{success: false, error, details}]. *)
Theorem fetch_envelope up query st :
  (∀ messages,
     (wrapperCall parseInt env up query st).2 = Js.Return messages →
     (GET parseInt env up query st).2
     = Js.Return {| status := 200;
                    body := success_true (topicIdOf parseInt env query)
                                         (length messages) messages |})
  ∧ (∀ e,
       (wrapperCall parseInt env up query st).2 = Js.Throw e →
       ∃ details,
         (GET parseInt env up query st).2
         = Js.Return {| status := 500;
                        body := success_false "Failed to fetch messages"
                                              details |})
  ∧ ∃ response, (GET parseInt env up query st).2 = Js.Return response.
Proof.
  unfold GET. simpl.
  destruct (wrapperCall parseInt env up query st).2 as [messages|e];
    simpl.
  - split; [by intros ? [= ->]|]. split; [done|]. by eexists.
  - split; [done|]. split; [intros ? _|]; by eexists.
Qed.

End FetchEndpoint.

(** ** The stream endpoint *)

Section StreamEndpoint.

Import StreamRoute.

Variable parseInt : string → Js.number.
Variable env : Request.Env.

Lemma run_app st evs1 evs2 :
  run parseInt env st (evs1 ++ evs2)
  = run parseInt env (run parseInt env st evs1) evs2.
Proof. unfold run. apply foldl_app. Qed.

Lemma ownWrappers_alter f conn st st' :
  (∀ c, subscribedOn (f c) = subscribedOn c) →
  telegramService st' = telegramService st →
  wrappers st' = wrappers st →
  connections st' = alter f conn (connections st) →
  ownWrappers st → ownWrappers st'.
Proof.
  intros Hf Hvar' Hw' Hc' (Hlen & Hown & Hvar). unfold ownWrappers.
  rewrite Hvar', Hw', Hc'. split; [by rewrite length_alter|].
  split; [|done]. intros i c. rewrite list_lookup_alter.
  case_decide as Hi; [subst i|by apply Hown].
  destruct (connections st !! conn) as [c0|] eqn:Hc0; [|done].
  intros [= <-]. rewrite Hf. by apply Hown.
Qed.

Lemma ownWrappers_step st ev :
  ownWrappers st → ownWrappers (step parseInt env st ev).
Proof.
  intros Hinv. destruct ev as [q now|conn o now|conn m now|conn now|conn|conn];
    simpl.
  - destruct Hinv as (Hlen & Hown & Hvar). unfold GET, ownWrappers. simpl.
    split; [rewrite length_app; simpl; lia|]. split; [|done].
    intros i c Hi. apply lookup_app_Some in Hi as [Hi|[Hge Hi]].
    + by apply Hown.
    + apply list_lookup_singleton_Some in Hi as [Hi <-]. simpl. lia.
  - apply (ownWrappers_alter (settle o now) conn st);
      [|reflexivity|reflexivity|reflexivity|exact Hinv].
    intros c. unfold settle. by destruct (setup c), o.
  - apply (ownWrappers_alter
             (fun c => match setup c with
                       | Subscribed => onMessage m now c
                       | _ => c
                       end) conn st);
      [|reflexivity|reflexivity|reflexivity|exact Hinv].
    intros c. unfold onMessage. destruct (setup c); try done.
    destruct (negb _); [done|]. by destruct (enqueue _ _).
  - apply (ownWrappers_alter
             (fun c => match heartbeatInterval c with
                       | Running => heartbeat now c
                       | _ => c
                       end) conn st);
      [|reflexivity|reflexivity|reflexivity|exact Hinv].
    intros c. unfold heartbeat. destruct (heartbeatInterval c); try done.
    destruct (negb _); [done|]. by destruct (enqueue _ _).
  - unfold teardownOf. destruct (connections st !! conn); [|done].
    by apply (ownWrappers_alter (teardown true) conn st).
  - unfold teardownOf. destruct (connections st !! conn); [|done].
    by apply (ownWrappers_alter (teardown false) conn st).
Qed.

Lemma ownWrappers_run evs : ownWrappers (run parseInt env initial evs).
Proof.
  induction evs as [|ev evs IH] using rev_ind.
  - by repeat split.
  - rewrite run_app. simpl. by apply ownWrappers_step.
Qed.

(** Two connections never share a wrapper. *)
Lemma connections_distinct_wrappers evs i j ci cj :
  connections (run parseInt env initial evs) !! i = Some ci →
  connections (run parseInt env initial evs) !! j = Some cj →
  i ≠ j → subscribedOn ci ≠ subscribedOn cj.
Proof.
  intros Hi Hj Hne. destruct (ownWrappers_run evs) as (_ & Hown & _).
  rewrite (Hown _ _ Hi), (Hown _ _ Hj). done.
Qed.

(** The handlers [cancel()] and abort call [disconnect()] on the wrapper
    made last, whichever connection they belong to. *)
Lemma teardown_disconnects_last evs cancelled conn c :
  connections (run parseInt env initial evs) !! conn = Some c →
  disconnected (teardownOf cancelled conn (run parseInt env initial evs))
  = (disconnected (run parseInt env initial evs)
     ++ [length (connections (run parseInt env initial evs)) - 1])%list.
Proof.
  intros Hc. destruct (ownWrappers_run evs) as (Hlen & _ & Hvar).
  unfold teardownOf. rewrite Hc. simpl. unfold disconnectCurrent.
  rewrite Hvar, Hlen. apply lookup_lt_Some in Hc.
  destruct (length (connections (run parseInt env initial evs))) as [|n];
    [lia|].
  do 2 f_equal. lia.
Qed.

(** C4.  Two stream connections are open at once, each subscribed on a
    wrapper of its own (0 and 1).  When the first one is torn down, by
    cancellation or by abort, [disconnect()] is called on wrapper 1, the
    wrapper of the second connection, and not on wrapper 0. *)
Theorem teardown_disconnects_other_wrapper ta tb :
  subscribedOn
    <$> connections (run parseInt env initial
                       [Get Sample.plainQuery ta; Get Sample.plainQuery tb])
  = [0; 1]
  ∧ disconnected (run parseInt env initial
                    [Get Sample.plainQuery ta; Get Sample.plainQuery tb;
                     Cancel 0])
    = [1]
  ∧ disconnected (run parseInt env initial
                    [Get Sample.plainQuery ta; Get Sample.plainQuery tb;
                     Abort 0])
    = [1].
Proof. repeat split. Qed.

Lemma settle_silent outcome now : silentWhenInactive (settle outcome now).
Proof.
  intros c Hc. unfold settle.
  destruct (setup c); [|done..].
  destruct outcome as [u|e]; [done|]. split; [done|].
  unfold messageChunks, enqueue. simpl.
  destruct (readable (controller c)); [|done]. simpl.
  rewrite filter_app. simpl. apply app_nil_r.
Qed.

Lemma onMessage_silent msg now :
  silentWhenInactive (fun c => match setup c with
                               | Subscribed => onMessage msg now c
                               | _ => c
                               end).
Proof.
  intros c Hc. destruct (setup c); [done| |done].
  unfold onMessage. by rewrite Hc.
Qed.

Lemma heartbeat_silent now :
  silentWhenInactive (fun c => match heartbeatInterval c with
                               | Running => heartbeat now c
                               | _ => c
                               end).
Proof.
  intros c Hc. destruct (heartbeatInterval c) eqn:Hi; [done| |done].
  unfold heartbeat. by rewrite Hc.
Qed.

Lemma teardown_silent cancelled : silentWhenInactive (teardown cancelled).
Proof. intros c Hc. split; [done|]. by destruct cancelled. Qed.

Lemma alter_silent f conn' (l : list Connection) conn c :
  silentWhenInactive f →
  l !! conn = Some c → isStreamActive c = false →
  ∃ c', alter f conn' l !! conn = Some c'
        ∧ isStreamActive c' = false ∧ messageChunks c' = messageChunks c.
Proof.
  intros Hf Hc Hoff. rewrite list_lookup_alter.
  case_decide as Heq; [subst conn'|by exists c].
  rewrite Hc. simpl. exists (f c). split; [done|]. by apply Hf.
Qed.

(** Once a connection is inactive, no event makes it active again or
    pushes a [message] event on its channel. *)
Lemma step_inactive st ev conn c :
  connections st !! conn = Some c → isStreamActive c = false →
  ∃ c', connections (step parseInt env st ev) !! conn = Some c'
        ∧ isStreamActive c' = false ∧ messageChunks c' = messageChunks c.
Proof.
  intros Hc Hoff.
  destruct ev as [q now|conn' o now|conn' m now|conn' now|conn'|conn'];
    simpl.
  - exists c. split; [|done]. by apply lookup_app_l_Some.
  - by apply alter_silent; [apply settle_silent|..].
  - by apply alter_silent; [apply onMessage_silent|..].
  - by apply alter_silent; [apply heartbeat_silent|..].
  - unfold teardownOf. destruct (connections st !! conn'); [|by exists c].
    by apply alter_silent; [apply teardown_silent|..].
  - unfold teardownOf. destruct (connections st !! conn'); [|by exists c].
    by apply alter_silent; [apply teardown_silent|..].
Qed.

Lemma run_inactive evs st conn c :
  connections st !! conn = Some c → isStreamActive c = false →
  ∃ c', connections (run parseInt env st evs) !! conn = Some c'
        ∧ isStreamActive c' = false ∧ messageChunks c' = messageChunks c.
Proof.
  revert st c. induction evs as [|ev evs IH]; intros st c Hc Hoff.
  - by exists c.
  - destruct (step_inactive st ev conn c Hc Hoff) as (c1 & Hc1 & Hoff1 & Hm1).
    destruct (IH _ _ Hc1 Hoff1) as (c2 & Hc2 & Hoff2 & Hm2).
    exists c2. split; [exact Hc2|]. split; [done|]. congruence.
Qed.

(** After [cancel()] or the abort listener of a connection has run, the
    connection is inactive and its heartbeat interval does not run; from
    then on it stays inactive and no [message] event is enqueued on its
    channel, whatever happens. *)
Lemma teardown_silences cancelled conn st c evs :
  connections st !! conn = Some c →
  (∃ c', connections (teardownOf cancelled conn st) !! conn = Some c'
         ∧ isStreamActive c' = false ∧ heartbeatInterval c' ≠ Running)
  ∧ (∃ c', connections
             (run parseInt env (teardownOf cancelled conn st) evs) !! conn
           = Some c'
           ∧ isStreamActive c' = false)
  ∧ messagesPushed conn (run parseInt env (teardownOf cancelled conn st) evs)
    = messagesPushed conn (teardownOf cancelled conn st).
Proof.
  intros Hc.
  assert (Hnow : connections (teardownOf cancelled conn st) !! conn
                 = Some (teardown cancelled c)).
  { unfold teardownOf. rewrite Hc. simpl.
    by rewrite list_lookup_alter_eq, Hc. }
  split.
  { exists (teardown cancelled c). split; [done|]. split; [done|].
    simpl. by destruct (heartbeatInterval c). }
  destruct (run_inactive evs _ conn _ Hnow eq_refl) as (c' & Hc' & Hoff & Hm).
  split; [by exists c'|].
  unfold messagesPushed. by rewrite Hc', Hnow.
Qed.

(** C8.  The request of the first of two streaming connections is
    aborted.  Its flag is cleared, its heartbeat interval is stopped, and
    a message that arrives afterwards is not pushed; but [disconnect()] is
    called on wrapper 1, while the connection subscribed on wrapper 0,
    which is never disconnected. *)
Theorem teardown_leaves_own_wrapper_connected ta tb t1 t2 t3 :
  let st := run parseInt env initial
              [Get Sample.plainQuery ta; Settle 0 (Js.Return ()) t1;
               Get Sample.plainQuery tb; Settle 1 (Js.Return ()) t2;
               Abort 0] in
  (isStreamActive <$> connections st !! 0) = Some false
  ∧ (heartbeatInterval <$> connections st !! 0) = Some Cleared
  ∧ (subscribedOn <$> connections st !! 0) = Some 0
  ∧ disconnected st = [1]
  ∧ messagesPushed 0
      (step parseInt env st (OnMessage 0 Sample.parsedHello t3)) = [].
Proof. repeat split. Qed.

End StreamEndpoint.

(** ** The list of the display component *)

Section DisplayList.

Import MessageList.

(** [prev.some((m) => m.id === newMessage.id)] finds nothing exactly when
    the identifier is new. *)
Lemma some_id_false (newMessage : Message) (prev : list Message) :
  existsb (fun m => Z.eqb (id m) (id newMessage)) prev = false
  ↔ id newMessage ∉ id <$> prev.
Proof.
  induction prev as [|m prev IH]; simpl.
  - split; [intros _; apply not_elem_of_nil | done].
  - rewrite orb_false_iff, IH, not_elem_of_cons, Z.eqb_neq.
    split; intros [Hhead Htail]; split; auto.
Qed.

Lemma addMessage_new (newMessage : Message) (prev : list Message) :
  id newMessage ∉ id <$> prev →
  addMessage newMessage prev = newMessage :: take 99 prev.
Proof.
  intros Hnew. unfold addMessage.
  by rewrite (proj2 (some_id_false newMessage prev) Hnew).
Qed.

Lemma addMessage_known (newMessage : Message) (prev : list Message) :
  id newMessage ∈ id <$> prev → addMessage newMessage prev = prev.
Proof.
  intros Hold. unfold addMessage.
  destruct (existsb _ prev) eqn:Hsome; [done|].
  by apply some_id_false in Hsome.
Qed.

Lemma addMessage_bounded (newMessage : Message) (prev : list Message) :
  bounded prev → bounded (addMessage newMessage prev).
Proof.
  intros [Hnodup Hlen]. unfold addMessage.
  destruct (existsb _ prev) eqn:Hsome; [done|].
  apply some_id_false in Hsome. split.
  - rewrite fmap_take. eapply sublist_NoDup; [|apply sublist_take].
    rewrite fmap_cons. by apply NoDup_cons.
  - rewrite length_take. lia.
Qed.

Lemma onmessage_bounded data now (st : State) :
  bounded (messages st) → bounded (messages (onmessage data now st)).
Proof.
  intros Hb. destruct data as [[|newMessage|e| |]|]; simpl; try done.
  by apply addMessage_bounded.
Qed.

(** C3.  Start from a list without repeated identifiers and with at most
    100 entries, and let any sequence of stream events arrive.  After each
    event the list has no identifier twice and at most 100 entries; and
    whenever a [message] event brings an identifier that is not in the
    list, the new message becomes the first entry, in front of the entries
    there were. *)
Theorem message_list_deduplicated
    (st : State) (events : list (option StreamData * Z)) :
  bounded (messages st) →
  Forall (fun st' => bounded (messages st'))
         (states st ((fun e => EsMessage e.1 e.2) <$> events))
  ∧ (∀ st' newMessage now,
       id newMessage ∉ id <$> messages st' →
       messages (step st' (EsMessage (Some (type_message newMessage)) now))
       = newMessage :: take 99 (messages st')).
Proof.
  intros Hb. split.
  - revert st Hb. induction events as [|[data now] events IH]; intros st Hb.
    + constructor.
    + simpl. constructor.
      * by apply onmessage_bounded.
      * apply IH. by apply onmessage_bounded.
  - intros st' newMessage now Hnew. simpl. by apply addMessage_new.
Qed.

Lemma message_list_deduplicated_witness :
  bounded (messages (initial 0))
  ∧ Forall (fun st' => bounded (messages st'))
      (states (initial 0)
         ((fun e => EsMessage e.1 e.2)
            <$> [(Some (type_message Sample.shown1), 1%Z);
                 (Some (type_message Sample.shown2), 2%Z);
                 (Some (type_message Sample.shown1), 3%Z)])).
Proof.
  assert (Hb : bounded (messages (initial 0))).
  { split; [apply NoDup_nil_2 | simpl; lia]. }
  split; [exact Hb|].
  exact (proj1 (message_list_deduplicated (initial 0)
                  [(Some (type_message Sample.shown1), 1%Z);
                   (Some (type_message Sample.shown2), 2%Z);
                   (Some (type_message Sample.shown1), 3%Z)] Hb)).
Defined.

End DisplayList.

(** ** Reconnecting with backoff *)

Section Backoff.

Import MessageList.

(** A channel error in a visible tab, with the component mounted, arms
    the reconnect timeout with the delay of the current attempt count. *)
Lemma onerror_arms (st : State) :
  isActiveRef st = true → visible st = true →
  reconnectTimeoutRef (step st EsError)
  = Some (backoffDelay (reconnectAttemptsRef st))
  ∧ isActiveRef (step st EsError) = true
  ∧ visible (step st EsError) = true
  ∧ reconnectAttemptsRef (step st EsError) = reconnectAttemptsRef st.
Proof.
  intros Ha Hv. simpl. unfold onerror. simpl. by rewrite Ha, Hv.
Qed.

(** When the timeout fires, the attempt is made and counted. *)
Lemma reconnectTimeout_counts (st : State) delay :
  isActiveRef st = true → visible st = true →
  reconnectTimeoutRef st = Some delay →
  isActiveRef (step st ReconnectTimeout) = true
  ∧ visible (step st ReconnectTimeout) = true
  ∧ reconnectAttemptsRef (step st ReconnectTimeout)
    = S (reconnectAttemptsRef st).
Proof.
  intros Ha Hv Ht. simpl. rewrite Ht. unfold reconnectTimeout. simpl.
  by rewrite Ha, Hv.
Qed.

Lemma failedAttempts_delay (N : nat) (st : State) :
  isActiveRef st = true → visible st = true →
  reconnectTimeoutRef (run st (failedAttempts (S N)))
  = Some (backoffDelay (reconnectAttemptsRef st + N)).
Proof.
  revert st. induction N as [|N IH]; intros st Ha Hv.
  - destruct (onerror_arms st Ha Hv) as (Ht & _).
    rewrite Nat.add_0_r. exact Ht.
  - change (failedAttempts (S (S N)))
      with (EsError :: ReconnectTimeout :: failedAttempts (S N)).
    change (run st (EsError :: ReconnectTimeout :: failedAttempts (S N)))
      with (run (step (step st EsError) ReconnectTimeout)
                (failedAttempts (S N))).
    destruct (onerror_arms st Ha Hv) as (Ht & Ha1 & Hv1 & Hn1).
    destruct (reconnectTimeout_counts _ _ Ha1 Hv1 Ht) as (Ha2 & Hv2 & Hn2).
    rewrite (IH _ Ha2 Hv2), Hn2, Hn1. do 2 f_equal. lia.
Qed.

(** C7, as amended.  While the tab is visible and the component is
    mounted, a channel error arms the reconnect timeout with
    min(1000 * 2^k, 30000) milliseconds, [k] being the attempt counter,
    which each reconnect attempt made by the timeout raises by one.  So
    when the counter is zero (as at mount and after a successful open) and
    [N] channel errors follow one another, each but the last followed by
    its reconnect attempt and none by a successful open, the delay before
    the [N]-th reconnect attempt is min(1000 * 2^(N-1), 30000)
    milliseconds.  A successful open sets the counter to zero. *)
Theorem reconnect_backoff_while_visible (N : nat) (st : State) :
  isActiveRef st = true → visible st = true →
  reconnectTimeoutRef (step st EsError)
  = Some (Z.min (1000 * 2 ^ Z.of_nat (reconnectAttemptsRef st)) 30000)
  ∧ reconnectAttemptsRef (step (step st EsError) ReconnectTimeout)
    = S (reconnectAttemptsRef st)
  ∧ ((1 ≤ N)%nat → reconnectAttemptsRef st = 0 →
     reconnectTimeoutRef (run st (failedAttempts N))
     = Some (Z.min (1000 * 2 ^ (Z.of_nat N - 1)) 30000))
  ∧ (∀ st', reconnectAttemptsRef (step st' EsOpen) = 0)
  ∧ (∀ now, reconnectAttemptsRef (initial now) = 0).
Proof.
  intros Ha Hv.
  destruct (onerror_arms st Ha Hv) as (Ht & Ha1 & Hv1 & Hn1).
  split; [exact Ht|]. split.
  { destruct (reconnectTimeout_counts _ _ Ha1 Hv1 Ht) as (_ & _ & Hn2).
    by rewrite Hn2, Hn1. }
  split; [|done].
  intros HN H0. destruct N as [|N]; [lia|].
  rewrite (failedAttempts_delay N st Ha Hv), H0. unfold backoffDelay.
  replace (Z.of_nat (0 + N)) with (Z.of_nat (S N) - 1)%Z by lia.
  reflexivity.
Qed.

Lemma reconnect_backoff_while_visible_witness :
  isActiveRef Fixtures.listening = true
  ∧ visible Fixtures.listening = true
  ∧ reconnectTimeoutRef (run Fixtures.listening (failedAttempts 3))
    = Some 4000%Z.
Proof.
  split; [reflexivity|]. split; [reflexivity|].
  exact (proj1 (proj2 (proj2
           (reconnect_backoff_while_visible 3 Fixtures.listening
              eq_refl eq_refl))) ltac:(lia) eq_refl).
Defined.

(** C7, as stated, fails.  In a hidden tab a channel error arms no
    timeout at all; and in a visible tab a second channel error that
    comes before the timeout of the first has fired waits 1000
    milliseconds again, not 2000. *)
Lemma reconnect_backoff_not_by_error_count :
  ¬ Spec.backoffAfterErrors Fixtures.hiddenTab 1 [EsError]
  ∧ ¬ Spec.backoffAfterErrors Fixtures.listening 2 [EsError; EsError].
Proof.
  split; intros Hclaim.
  - assert (Hrun : reconnectTimeoutRef (run Fixtures.hiddenTab [EsError])
                   = Some 1000%Z).
    { apply Hclaim; [lia | reflexivity|].
      repeat split. by repeat constructor. }
    vm_compute in Hrun. discriminate Hrun.
  - assert (Hrun : reconnectTimeoutRef
                     (run Fixtures.listening [EsError; EsError])
                   = Some 2000%Z).
    { apply Hclaim; [lia | reflexivity|].
      repeat split. by repeat constructor. }
    vm_compute in Hrun. discriminate Hrun.
Qed.

End Backoff.

(** * Further properties of the wrapper *)

Section HandlerFacts.

Import Client.

(** X1.  Whatever the handler hands to [onMessage] is the parse of an
    [Api.Message] of the target chat: it carries that message's id and
    thread root, and nothing else is ever handed over. *)
Theorem handler_delivers_parsed_target_messages
    TOPIC_ID chatId topicId event_message parsed :
  newMessageHandler TOPIC_ID chatId topicId event_message = Some parsed →
  ∃ message,
    event_message = Some (Api.IsMessage message)
    ∧ isTargetChat chatId message = true
    ∧ parseMessage (Api.IsMessage message) = Some parsed
    ∧ id parsed = Api.id message
    ∧ Client.topicId parsed = threadRoot message.
Proof.
  unfold newMessageHandler.
  destruct event_message as [[message|s|i]|]; try done.
  destruct (isTargetChat chatId message) eqn:Hchat; [|done].
  intros Hsome. exists message.
  assert (Hparse : parseMessage (Api.IsMessage message) = Some parsed).
  { destruct (Js.number_eq topicId TOPIC_ID);
      [destruct (generalTopicTest message)
      |destruct (otherTopicTest topicId message)]; done. }
  repeat split; try done.
  - simpl in Hparse. by injection Hparse as <-.
  - simpl in Hparse. by injection Hparse as <-.
Qed.

Lemma handler_delivers_parsed_target_messages_witness :
  ∃ message,
    Some (Api.IsMessage Sample.replyInTopic7) = Some (Api.IsMessage message)
    ∧ isTargetChat Sample.supergroup message = true
    ∧ parseMessage (Api.IsMessage message) = Some Fixtures.parsedReply
    ∧ id Fixtures.parsedReply = Api.id message
    ∧ Client.topicId Fixtures.parsedReply = threadRoot message.
Proof.
  apply (handler_delivers_parsed_target_messages
           (Js.Num 1) Sample.supergroup (Js.Num 7)
           (Some (Api.IsMessage Sample.replyInTopic7)) Fixtures.parsedReply).
  reflexivity.
Defined.

(** X2.  A subscription whose topic id is [NaN] (an unparsable [topicId]
    parameter) never hands over anything, whatever arrives and whatever
    the general topic is. *)
Theorem nan_topic_is_silent TOPIC_ID chatId event_message :
  newMessageHandler TOPIC_ID chatId Js.NaN event_message = None.
Proof.
  unfold newMessageHandler.
  destruct event_message as [[message|s|i]|]; try done.
  destruct (isTargetChat chatId message); [|done]. simpl.
  unfold otherTopicTest. destruct (Api.replyTo message) as [r|]; [|done].
  unfold Js.strict_eq_num.
  destruct (Js.has_key _), (Js.read _); done.
Qed.

(** X3.  When [TOPIC_ID] is not set in the environment, so that
    [Number(process.env.TOPIC_ID)] is [NaN], no subscription takes the
    general branch: a message without a reply header is never handed
    over. *)
Theorem unset_general_topic_drops_root_messages chatId topicId message :
  Api.replyTo message = None →
  newMessageHandler Js.NaN chatId topicId (Some (Api.IsMessage message))
  = None.
Proof.
  intros Hroot. unfold newMessageHandler.
  destruct (isTargetChat chatId message); [|done].
  replace (Js.number_eq topicId Js.NaN) with false by by destruct topicId.
  unfold otherTopicTest. by rewrite Hroot.
Qed.

Lemma unset_general_topic_drops_root_messages_witness :
  Api.replyTo Sample.channel123 = None
  ∧ newMessageHandler Js.NaN (ChatIdString "123") (Js.Num 1)
      (Some (Api.IsMessage Sample.channel123)) = None.
Proof.
  split; [reflexivity|].
  apply (unset_general_topic_drops_root_messages
           (ChatIdString "123") (Js.Num 1) Sample.channel123).
  reflexivity.
Defined.

(** X4.  The lemma [general_topic_accepts_without_reply] at a message of
    chat 123 without a reply header. *)
Lemma general_topic_accepts_without_reply_witness :
  Spec.accepted (Js.Num 1) (ChatIdString "123") (Js.Num 1)
    Sample.channel123.
Proof.
  apply (general_topic_accepts_without_reply
           (Js.Num 1) (ChatIdString "123") (Js.Num 1) Sample.channel123);
    reflexivity.
Defined.

(** X5.  With a topic other than the general one subscribed, a message
    whose reply header gives no [replyToTopId] value is never handed over;
    this includes the first post of the subscribed topic, which names the
    topic only through [replyToMsgId]. *)
Theorem other_topic_needs_replyToTopId TOPIC_ID chatId topicId message r :
  Js.number_eq topicId TOPIC_ID = false →
  Api.replyTo message = Some r →
  Js.read (Api.replyToTopId r) = None →
  newMessageHandler TOPIC_ID chatId topicId (Some (Api.IsMessage message))
  = None.
Proof.
  intros Hother Hr Hnone. unfold newMessageHandler.
  destruct (isTargetChat chatId message); [|done]. rewrite Hother.
  unfold otherTopicTest, Js.strict_eq_num. rewrite Hr, Hnone.
  by destruct (Js.has_key _).
Qed.

Lemma other_topic_needs_replyToTopId_witness :
  Js.read (Api.replyToMsgId
             {| Api.replyToTopId := Js.Undefined;
                Api.forumTopic := Js.Present true;
                Api.replyToMsgId := Js.Present 7%Z |}) = Some 7%Z
  ∧ newMessageHandler (Js.Num 1) Sample.supergroup (Js.Num 7)
      (Some (Api.IsMessage Fixtures.firstPostOfTopic7)) = None.
Proof.
  split; [reflexivity|].
  apply (other_topic_needs_replyToTopId (Js.Num 1) Sample.supergroup
           (Js.Num 7) Fixtures.firstPostOfTopic7
           {| Api.replyToTopId := Js.Undefined;
              Api.forumTopic := Js.Present true;
              Api.replyToMsgId := Js.Present 7%Z |});
    reflexivity.
Defined.

End HandlerFacts.

Section ChatFilterFacts.

Import Client.

Lemma replace_absent (pat rep s : string) :
  Js.includes pat s = false → Js.replace pat rep s = s.
Proof.
  induction s as [|c s IH].
  - by destruct pat.
  - cbn [Js.includes Js.replace].
    destruct (String.prefix pat (String c s)); [done|].
    intros Hs. by rewrite IH.
Qed.

Lemma prefix_split (p s : string) :
  String.prefix p s = true → ∃ rest, s = p +:+ rest.
Proof.
  revert s. induction p as [|a p IH]; intros s; simpl.
  - intros _. by exists s.
  - destruct s as [|b s]; [done|]. cbn [String.prefix].
    destruct (Ascii.ascii_dec a b) as [->|]; [|done].
    intros Hp. destruct (IH s Hp) as [rest ->]. by exists rest.
Qed.

(** [replace('-100', '')] gives the empty string only for the empty
    string and for "-100" itself. *)
Lemma replace_empty (s : string) :
  Js.replace "-100" "" s = "" ↔ s = "" ∨ s = "-100".
Proof.
  split.
  - destruct (String.prefix "-100" s) eqn:Hp.
    + destruct (prefix_split _ _ Hp) as [rest ->].
      rewrite replace_leading. intros ->. by right.
    + destruct s as [|c s]; [by left|].
      cbn [Js.replace]. rewrite Hp. done.
  - intros [->| ->]; reflexivity.
Qed.

(** X6.  For a chat id whose string does not contain "-100", the chat
    filter is plain equality of the peer string and the chat id string. *)
Theorem chat_filter_exact_without_marker chatId message :
  Js.includes "-100" (chatId_toString chatId) = false →
  (isTargetChat chatId message = true
   ↔ msgChatId message = chatId_toString chatId).
Proof.
  intros Hno. unfold isTargetChat.
  rewrite (replace_absent _ _ _ Hno), orb_diag. apply String.eqb_eq.
Qed.

Lemma chat_filter_exact_without_marker_witness :
  isTargetChat (ChatIdString "123") Sample.channel123 = true
  ↔ msgChatId Sample.channel123 = "123".
Proof.
  apply (chat_filter_exact_without_marker (ChatIdString "123")
           Sample.channel123).
  reflexivity.
Defined.

(** X7.  A message without a peer (or with a peer of no known class) has
    the empty peer string; it passes the chat filter only when the chat
    id string is empty or is exactly "-100". *)
Theorem chat_filter_without_peer chatId message :
  Api.peerId message = None ∨ Api.peerId message = Some Api.PeerOther →
  (isTargetChat chatId message = true
   ↔ chatId_toString chatId = "" ∨ chatId_toString chatId = "-100").
Proof.
  intros Hpeer.
  assert (Hempty : msgChatId message = "").
  { unfold msgChatId. by destruct Hpeer as [-> | ->]. }
  unfold isTargetChat. rewrite Hempty, orb_true_iff, !String.eqb_eq.
  split.
  - intros [H|H]; [by left|]. by apply replace_empty.
  - intros H. right. symmetry. by apply replace_empty.
Qed.

Lemma chat_filter_without_peer_witness :
  isTargetChat Sample.supergroup Fixtures.noPeer = true
  ↔ chatId_toString Sample.supergroup = ""
    ∨ chatId_toString Sample.supergroup = "-100".
Proof.
  apply (chat_filter_without_peer Sample.supergroup Fixtures.noPeer).
  left. reflexivity.
Defined.

End ChatFilterFacts.

Section ReadFacts.

Import Client.

Lemma parseAll_app (a b : list Api.TypeMessage) :
  parseAll (Some (a ++ b)%list)
  = (parseAll (Some a) ++ parseAll (Some b))%list.
Proof. unfold parseAll. apply omap_app. Qed.

(** X8.  The parsing loop of the read operations drops the
    [MessageEmpty] entries of the platform's answer and nothing else, and
    keeps the platform's order: the parsed list and the empty entries
    together are as many as the answer, the parse of a concatenation is
    the concatenation of the parses, and an answer without [messages]
    gives the empty list. *)
Theorem parseAll_drops_only_empty (a b : list Api.TypeMessage) :
  (length (parseAll (Some a))
   + length (filter (fun m => Derived.isEmptyMessage m = true) a)
   = length a)%nat
  ∧ parseAll (Some (a ++ b)%list)
    = (parseAll (Some a) ++ parseAll (Some b))%list
  ∧ parseAll None = [].
Proof.
  split; [|split; [apply parseAll_app | reflexivity]].
  unfold parseAll. induction a as [|m a IH]; [reflexivity|].
  destruct m as [m|s|i].
  - rewrite filter_cons_False by done.
    cbn [omap list_omap parseMessage length]. lia.
  - rewrite filter_cons_False by done.
    cbn [omap list_omap parseMessage length]. lia.
  - rewrite filter_cons_True by done.
    cbn [omap list_omap parseMessage length]. lia.
Qed.

(** The state a read operation leaves is the state [connect] leaves. *)
Lemma getForumTopicMessages_state up w this chatId topicId limit :
  (getForumTopicMessages up w this chatId topicId limit).1
  = (connect (transport up) w this).1.
Proof.
  unfold getForumTopicMessages.
  by destruct (connect (transport up) w this) as [[w1 this1] r].
Qed.

Lemma getForumTopicMessages_result up w this chatId topicId limit :
  (getForumTopicMessages up w this chatId topicId limit).2
  = (_ ← (connect (transport up) w this).2;
     chat ← getEntity up chatId;
     result ← GetReplies up chat topicId limit;
     mret (parseAll result)).
Proof.
  unfold getForumTopicMessages.
  destruct (connect (transport up) w this) as [[w1 this1] [c|e]];
    [|done]. simpl.
  destruct (getEntity up chatId) as [chat|e]; [|done]. simpl.
  by destruct (GetReplies up chat topicId limit).
Qed.

(** X9.  [getForumTopicMessages] returns a list exactly when connecting,
    resolving the chat and the replies call all return, and the list is
    then the parse of the answer; it throws exactly what the first of the
    three to fail threw, and makes up no error of its own. *)
Theorem getForumTopicMessages_outcome up w this chatId topicId limit :
  (∀ messages,
     (getForumTopicMessages up w this chatId topicId limit).2
     = Js.Return messages
     ↔ ∃ c chat result,
         (connect (transport up) w this).2 = Js.Return c
         ∧ getEntity up chatId = Js.Return chat
         ∧ GetReplies up chat topicId limit = Js.Return result
         ∧ messages = parseAll result)
  ∧ (∀ e,
       (getForumTopicMessages up w this chatId topicId limit).2
       = Js.Throw e
       ↔ (connect (transport up) w this).2 = Js.Throw e
         ∨ (∃ c, (connect (transport up) w this).2 = Js.Return c
                 ∧ getEntity up chatId = Js.Throw e)
         ∨ (∃ c chat,
              (connect (transport up) w this).2 = Js.Return c
              ∧ getEntity up chatId = Js.Return chat
              ∧ GetReplies up chat topicId limit = Js.Throw e)).
Proof.
  rewrite getForumTopicMessages_result.
  destruct (connect (transport up) w this).2 as [c|e0]; simpl.
  - destruct (getEntity up chatId) as [chat|e1] eqn:Hchat; simpl.
    + destruct (GetReplies up chat topicId limit) as [result|e2] eqn:Hres;
        simpl.
      * split.
        -- intros messages. split.
           ++ intros [= <-]. by exists c, chat, result.
           ++ intros (c' & chat' & result' & _ & [= <-] & Hr & ->).
              rewrite Hres in Hr. by injection Hr as <-.
        -- intros e. split; [done|].
           intros [?|[(c' & _ & ?)|(c' & chat' & _ & [= <-] & Hr)]];
             try done. congruence.
      * split.
        -- intros messages. split; [done|].
           intros (c' & chat' & result' & _ & [= <-] & Hr & _). congruence.
        -- intros e. split.
           ++ intros [= <-]. right; right. by exists c, chat.
           ++ intros [?|[(c' & _ & ?)|(c' & chat' & _ & [= <-] & Hr)]];
                try done. congruence.
    + split.
      * intros messages. split; [done|].
        by intros (c' & chat' & result' & _ & ? & _).
      * intros e. split.
        -- intros [= <-]. right; left. by exists c.
        -- intros [?|[(c' & _ & ?)|(c' & chat' & _ & ? & _)]]; try done.
           congruence.
  - split.
    + intros messages. split; [done|].
      by intros (c' & chat' & result' & ? & _).
    + intros e. split.
      * intros [= <-]. by left.
      * intros [?|[(c' & ? & _)|(c' & chat' & ? & _)]]; try done.
        congruence.
Qed.

End ReadFacts.

Section HandleFacts.

Import Client.

(** A [connect()] that returns leaves the wrapper holding the returned
    handle, connected. *)
Lemma connect_returns_live transport w this c :
  (connect transport w this).2 = Js.Return c →
  client (connect transport w this).1.2 = Some c
  ∧ isConnected (connect transport w this).1.1 c = true.
Proof.
  destruct (holdsLiveHandle w this) eqn:Hlive.
  - unfold holdsLiveHandle in Hlive.
    destruct (client this) as [c0|] eqn:Hc; [|done].
    rewrite (connect_live transport w this c0 Hc Hlive). simpl.
    by intros [= <-].
  - rewrite (connect_fresh _ _ _ Hlive).
    destruct transport as [u|e]; [|done]. simpl. intros [= <-].
    split; [done | apply isConnected_fresh].
Qed.

(** X10.  [connect()] never touches the clients that exist already: each
    keeps its connection state. *)
Theorem connect_keeps_other_clients transport w this c :
  (c < length (clients w))%nat →
  isConnected (connect transport w this).1.1 c = isConnected w c.
Proof.
  intros Hc. destruct (holdsLiveHandle w this) eqn:Hlive.
  - unfold holdsLiveHandle in Hlive.
    destruct (client this) as [c0|] eqn:Hc0; [|done].
    by rewrite (connect_live transport w this c0 Hc0 Hlive).
  - rewrite (connect_fresh _ _ _ Hlive). unfold isConnected.
    destruct transport as [u|e]; simpl.
    + rewrite list_lookup_insert_ne by lia. by rewrite lookup_app_l.
    + by rewrite lookup_app_l.
Qed.

Lemma connect_keeps_other_clients_witness :
  (0 < length (clients Fixtures.oneClient))%nat
  ∧ isConnected
      (connect (Js.Return ()) Fixtures.oneClient Sample.unconnected).1.1 0
    = isConnected Fixtures.oneClient 0.
Proof.
  split; [simpl; lia|].
  apply (connect_keeps_other_clients (Js.Return ()) Fixtures.oneClient
           Sample.unconnected 0).
  simpl; lia.
Defined.

(** X11.  [disconnect()] releases the handle: afterwards the wrapper
    holds no client and the client it held is not connected; every other
    client keeps its state; and it is safe to call again, or on a wrapper
    that never connected, where it does nothing. *)
Theorem disconnect_releases w this :
  client (disconnect w this).2 = None
  ∧ (∀ c, client this = Some c → isConnected (disconnect w this).1 c = false)
  ∧ (∀ c, client this ≠ Some c →
       isConnected (disconnect w this).1 c = isConnected w c)
  ∧ disconnect (disconnect w this).1 (disconnect w this).2
    = disconnect w this
  ∧ (client this = None → disconnect w this = (w, this)).
Proof.
  unfold disconnect. destruct (client this) as [c0|] eqn:Hc0; simpl.
  - split; [done|]. split; [|split; [|done]].
    + intros c [= <-]. unfold isConnected. simpl.
      destruct (decide (c0 < length (clients w))%nat).
      * by rewrite list_lookup_insert_eq.
      * rewrite list_insert_ge by lia.
        by rewrite lookup_ge_None_2 by lia.
    + intros c Hne. unfold isConnected. simpl.
      rewrite list_lookup_insert_ne; [done|]. congruence.
  - rewrite Hc0. done.
Qed.

(** X12.  After [disconnect()], [connect()] does not go back to the old
    client: it makes a new one, the next of the world, and the old one
    stays disconnected. *)
Theorem reconnect_makes_new_client u w this :
  (connect (Js.Return u) (disconnect w this).1 (disconnect w this).2).2
  = Js.Return (length (clients w))
  ∧ (∀ c, client this = Some c → (c < length (clients w))%nat →
       isConnected
         (connect (Js.Return u) (disconnect w this).1
                  (disconnect w this).2).1.1 c
       = false).
Proof.
  assert (Hdead : holdsLiveHandle (disconnect w this).1 (disconnect w this).2
                  = false).
  { unfold disconnect, holdsLiveHandle.
    destruct (client this) as [c0|] eqn:Hc0; simpl; [done|]. by rewrite Hc0. }
  assert (Hlen : length (clients (disconnect w this).1) = length (clients w)).
  { unfold disconnect. destruct (client this); simpl; [|done].
    by rewrite length_insert. }
  rewrite (connect_fresh _ _ _ Hdead). simpl. rewrite Hlen.
  split; [done|]. intros c Hc Hlt. unfold isConnected. simpl.
  rewrite list_lookup_insert_ne by lia.
  rewrite lookup_app_l by lia.
  unfold disconnect. rewrite Hc. simpl.
  by rewrite list_lookup_insert_eq.
Qed.

(** X13.  A [connect()] that fails leaves its new, unconnected client in
    the wrapper; the next [connect()] does not retry on it but makes yet
    another client. *)
Theorem failed_connect_leaves_dead_client e u w this :
  holdsLiveHandle w this = false →
  (connect (Js.Throw e) w this).2 = Js.Throw e
  ∧ client (connect (Js.Throw e) w this).1.2 = Some (length (clients w))
  ∧ isConnected (connect (Js.Throw e) w this).1.1 (length (clients w))
    = false
  ∧ (connect (Js.Return u) (connect (Js.Throw e) w this).1.1
                           (connect (Js.Throw e) w this).1.2).2
    = Js.Return (S (length (clients w))).
Proof.
  intros Hdead. rewrite (connect_fresh _ _ _ Hdead). simpl.
  assert (Hoff : isConnected {| clients := (clients w ++ [false])%list |}
                             (length (clients w)) = false).
  { unfold isConnected. simpl.
    by rewrite lookup_app_r, Nat.sub_diag by lia. }
  repeat split; try done.
  rewrite connect_fresh.
  - simpl. rewrite length_app. simpl. do 2 f_equal. lia.
  - unfold holdsLiveHandle. simpl. exact Hoff.
Qed.

Lemma failed_connect_leaves_dead_client_witness :
  holdsLiveHandle Sample.emptyWorld Sample.unconnected = false
  ∧ (connect (Js.Return ())
       (connect (Js.Throw Js.OtherValue) Sample.emptyWorld
                Sample.unconnected).1.1
       (connect (Js.Throw Js.OtherValue) Sample.emptyWorld
                Sample.unconnected).1.2).2
    = Js.Return 1.
Proof.
  split; [reflexivity|].
  exact (proj2 (proj2 (proj2
           (failed_connect_leaves_dead_client Js.OtherValue ()
              Sample.emptyWorld Sample.unconnected eq_refl)))).
Defined.

(** A read on a wrapper that holds a live handle changes neither the
    wrapper nor the clients. *)
Lemma read_on_live_handle up w this c chatId topicId limit :
  client this = Some c → isConnected w c = true →
  (getForumTopicMessages up w this chatId topicId limit).1 = (w, this).
Proof.
  intros Hc Hlive. rewrite getForumTopicMessages_state.
  by rewrite (connect_live _ w this c Hc Hlive).
Qed.

(** X14.  A read keeps the connection it made, whether the platform's
    call returns or throws: a further read on the same wrapper finds the
    live handle and makes no new client. *)
Theorem read_keeps_connection
    up up' u w this chatId topicId limit chatId' topicId' limit' :
  transport up = Js.Return u →
  (getForumTopicMessages up'
     (getForumTopicMessages up w this chatId topicId limit).1.1
     (getForumTopicMessages up w this chatId topicId limit).1.2
     chatId' topicId' limit').1
  = (getForumTopicMessages up w this chatId topicId limit).1.
Proof.
  intros Hup. rewrite (getForumTopicMessages_state up).
  assert (Hret : ∃ c, (connect (transport up) w this).2 = Js.Return c).
  { rewrite Hup. unfold connect.
    destruct (client this) as [c|]; [destruct (isConnected w c)|];
      by eexists. }
  destruct Hret as [c Hret].
  destruct (connect_returns_live _ _ _ _ Hret) as [Hc Hlive].
  rewrite (read_on_live_handle up' _ _ c _ _ _ Hc Hlive).
  by destruct (connect (transport up) w this) as [[w1 this1] r].
Qed.

Lemma read_keeps_connection_witness :
  Client.transport Fixtures.answering = Js.Return ()
  ∧ length (clients
      (getForumTopicMessages Sample.forumless
         (getForumTopicMessages Fixtures.answering Sample.emptyWorld
            Sample.unconnected Sample.supergroup (Js.Num 7) (Js.Num 5)).1.1
         (getForumTopicMessages Fixtures.answering Sample.emptyWorld
            Sample.unconnected Sample.supergroup (Js.Num 7) (Js.Num 5)).1.2
         Sample.supergroup (Js.Num 1) (Js.Num 100)).1.1)
    = 1.
Proof.
  split; [reflexivity|].
  by rewrite (read_keeps_connection Fixtures.answering Sample.forumless ()
                Sample.emptyWorld Sample.unconnected Sample.supergroup
                (Js.Num 7) (Js.Num 5) Sample.supergroup (Js.Num 1)
                (Js.Num 100) eq_refl).
Defined.

End HandleFacts.

Section FetchFacts.

Import FetchRoute.

Variable parseInt : string → Js.number.
Variable env : Request.Env.

(** The module state a request leaves is what [connect] on the module's
    wrapper leaves. *)
Lemma GET_state up query st :
  (GET parseInt env up query st).1
  = {| telegramService :=
         Some (Client.connect (Client.transport up) (world st)
                 (getTelegramService st)).1.2;
       world :=
         (Client.connect (Client.transport up) (world st)
            (getTelegramService st)).1.1 |}.
Proof.
  unfold GET. cbn [fst]. unfold wrapperCall.
  by rewrite getForumTopicMessages_state.
Qed.

(** X15.  The fetch endpoint connects once: after a request whose
    transport connected, a further request, whatever the platform then
    does, leaves the module's wrapper and the clients as they are; and
    the first request of a fresh module makes exactly one client. *)
Theorem fetch_reuses_client up up' u query query' st :
  Client.transport up = Js.Return u →
  (GET parseInt env up' query' (GET parseInt env up query st).1).1
  = (GET parseInt env up query st).1
  ∧ (telegramService st = None →
     length (Client.clients (world (GET parseInt env up query st).1))
     = S (length (Client.clients (world st)))).
Proof.
  intros Hup.
  assert (Hret : ∃ c, (Client.connect (Client.transport up) (world st)
                         (getTelegramService st)).2 = Js.Return c).
  { rewrite Hup. unfold Client.connect.
    destruct (Client.client _) as [c|];
      [destruct (Client.isConnected _ c)|]; by eexists. }
  destruct Hret as [c Hret].
  destruct (connect_returns_live _ _ _ _ Hret) as [Hc Hlive].
  split.
  - rewrite (GET_state up'), (GET_state up).
    destruct (Client.connect (Client.transport up) (world st)
                (getTelegramService st)) as [[w1 s1] r].
    cbn [fst snd world telegramService getTelegramService] in *.
    by rewrite (connect_live _ _ _ c Hc Hlive).
  - intros Hnone. rewrite GET_state. cbn [world].
    unfold getTelegramService. rewrite Hnone, Hup.
    simpl. rewrite length_insert, length_app. simpl. lia.
Qed.

End FetchFacts.

Lemma fetch_reuses_client_witness :
  Client.transport Fixtures.answering = Js.Return ()
  ∧ length (Client.clients (FetchRoute.world
      (FetchRoute.GET Fixtures.parseOne Fixtures.env Sample.forumless
         Sample.plainQuery
         (FetchRoute.GET Fixtures.parseOne Fixtures.env Fixtures.answering
            Sample.plainQuery Fixtures.freshModule).1).1))
    = 1.
Proof.
  split; [reflexivity|].
  by rewrite (proj1 (fetch_reuses_client Fixtures.parseOne Fixtures.env
                       Fixtures.answering Sample.forumless ()
                       Sample.plainQuery Sample.plainQuery
                       Fixtures.freshModule eq_refl)).
Defined.

Section TopicListFacts.

Import Client.

(** X16.  When the platform answers, [getForumTopics] lists the topics
    that are not deleted, in the platform's order, each under its own id;
    a missing unread count is reported as 0 and missing closed and pinned
    flags as false. *)
Theorem getForumTopics_lists_live_topics up w this chatId c entity topics :
  (connect (transport up) w this).2 = Js.Return c →
  getEntity up chatId = Js.Return entity →
  GetForumTopics up entity 100 = Js.Return (Some topics) →
  ∃ infos,
    (getForumTopics up w this chatId).2 = Js.Return infos
    ∧ info_id <$> infos = omap Derived.liveTopicId topics
    ∧ (∀ t, Api.IsForumTopic t ∈ topics →
         {| info_id := Api.topic_id t; title := Api.title t;
            unreadCount := default 0%Z (Api.unreadCount t);
            lastMessageId := Some (Api.topMessage t);
            info_date := Api.topic_date t;
            closed := default false (Api.closed t);
            pinned := default false (Api.pinned t) |} ∈ infos).
Proof.
  intros Hconn Hentity Htopics. exists (omap keepForumTopic topics).
  split; [|split].
  - unfold getForumTopics.
    destruct (connect (transport up) w this) as [[w1 this1] r].
    simpl in Hconn. subst r. simpl. rewrite Hentity. simpl.
    by rewrite Htopics.
  - clear. induction topics as [|[t|i] topics IH]; [done| |done].
    cbn [omap list_omap keepForumTopic Derived.liveTopicId fmap list_fmap].
    f_equal. exact IH.
  - intros t Hin. apply list_elem_of_omap.
    exists (Api.IsForumTopic t). by split.
Qed.

Lemma getForumTopics_lists_live_topics_witness :
  ∃ infos,
    (getForumTopics Fixtures.forum Sample.emptyWorld Sample.unconnected
       Sample.supergroup).2 = Js.Return infos
    ∧ info_id <$> infos = [1%Z; 7%Z].
Proof.
  destruct (getForumTopics_lists_live_topics Fixtures.forum
              Sample.emptyWorld Sample.unconnected Sample.supergroup
              0 2731547761%Z _ eq_refl eq_refl eq_refl)
    as (infos & Hret & Hids & _).
  exists infos. split; [exact Hret | exact Hids].
Defined.

End TopicListFacts.

(** * Further properties of the stream endpoint *)

Section StreamFacts.

Import StreamRoute.

Variable parseInt : string → Js.number.
Variable env : Request.Env.

(** An event leaves a connection as it is or runs one of its callbacks. *)
Lemma step_evolves st ev conn c :
  connections st !! conn = Some c →
  ∃ c', connections (step parseInt env st ev) !! conn = Some c'
        ∧ Derived.evolves c c'.
Proof.
  intros Hc.
  destruct ev as [q now|conn' o now|conn' m now|conn' now|conn'|conn'];
    simpl.
  - exists c. split; [by apply lookup_app_l_Some | constructor].
  - rewrite list_lookup_alter. case_decide as Heq; [subst conn'|].
    + rewrite Hc. eexists. split; [done | constructor].
    + exists c. split; [done | constructor].
  - rewrite list_lookup_alter. case_decide as Heq; [subst conn'|].
    + rewrite Hc. simpl. eexists. split; [done|].
      destruct (setup c) eqn:Hs; by constructor.
    + exists c. split; [done | constructor].
  - rewrite list_lookup_alter. case_decide as Heq; [subst conn'|].
    + rewrite Hc. simpl. eexists. split; [done|].
      destruct (heartbeatInterval c) eqn:Hi; by constructor.
    + exists c. split; [done | constructor].
  - unfold teardownOf.
    destruct (connections st !! conn'); [|exists c; split; [done|constructor]].
    simpl. rewrite list_lookup_alter. case_decide as Heq; [subst conn'|].
    + rewrite Hc. eexists. split; [done | constructor].
    + exists c. split; [done | constructor].
  - unfold teardownOf.
    destruct (connections st !! conn'); [|exists c; split; [done|constructor]].
    simpl. rewrite list_lookup_alter. case_decide as Heq; [subst conn'|].
    + rewrite Hc. eexists. split; [done | constructor].
    + exists c. split; [done | constructor].
Qed.

(** What the callbacks keep, every run keeps. *)
Lemma run_keeps (P : Connection → Prop) evs st conn c :
  (∀ x y, Derived.evolves x y → P x → P y) →
  connections st !! conn = Some c → P c →
  ∃ c', connections (run parseInt env st evs) !! conn = Some c' ∧ P c'.
Proof.
  intros Hkeep. revert st c. induction evs as [|ev evs IH]; intros st c Hc HP.
  - by exists c.
  - destruct (step_evolves st ev conn c Hc) as (c1 & Hc1 & Hev).
    apply (IH _ c1 Hc1). by apply (Hkeep c).
Qed.

(** A connection of the new state is the new connection of a request or
    a connection of the old state, evolved. *)
Lemma step_lookup_inv st ev i c' :
  connections (step parseInt env st ev) !! i = Some c' →
  (∃ c, connections st !! i = Some c ∧ Derived.evolves c c')
  ∨ (∃ chatId topicId now st1, c' = start chatId topicId now st1).
Proof.
  intros Hc'. destruct (connections st !! i) as [c|] eqn:Hc.
  - left. exists c. split; [done|].
    destruct (step_evolves st ev i c Hc) as (c1 & Hc1 & Hev). congruence.
  - right.
    destruct ev as [q now|conn' o now|conn' m now|conn' now|conn'|conn'];
      simpl in Hc'.
    + apply lookup_app_Some in Hc' as [Hc'|[_ Hc']]; [congruence|].
      apply list_lookup_singleton_Some in Hc' as [_ <-]. by eexists _, _, _, _.
    + rewrite list_lookup_alter in Hc'. case_decide; [subst|]; by rewrite Hc in Hc'.
    + rewrite list_lookup_alter in Hc'. case_decide; [subst|]; by rewrite Hc in Hc'.
    + rewrite list_lookup_alter in Hc'. case_decide; [subst|]; by rewrite Hc in Hc'.
    + unfold teardownOf in Hc'.
      destruct (connections st !! conn'); [|congruence]. simpl in Hc'.
      rewrite list_lookup_alter in Hc'. case_decide; [subst|]; by rewrite Hc in Hc'.
    + unfold teardownOf in Hc'.
      destruct (connections st !! conn'); [|congruence]. simpl in Hc'.
      rewrite list_lookup_alter in Hc'. case_decide; [subst|]; by rewrite Hc in Hc'.
Qed.

(** X17.  The lemma [connections_distinct_wrappers] at two requests. *)
Lemma connections_distinct_wrappers_witness :
  default 0 (subscribedOn
               <$> connections
                     (run Fixtures.parseOne Fixtures.env initial
                        [Get Sample.plainQuery 0; Get Sample.plainQuery 1])
                   !! 0)
  ≠ default 0 (subscribedOn
                 <$> connections
                       (run Fixtures.parseOne Fixtures.env initial
                          [Get Sample.plainQuery 0; Get Sample.plainQuery 1])
                     !! 1).
Proof.
  exact (connections_distinct_wrappers Fixtures.parseOne Fixtures.env
           [Get Sample.plainQuery 0; Get Sample.plainQuery 1] 0 1 _ _
           eq_refl eq_refl ltac:(lia)).
Defined.

(** X18.  The lemma [teardown_silences] at an aborted connection that
    then gets a message and a heartbeat tick. *)
Lemma teardown_silences_witness :
  messagesPushed 0
    (run Fixtures.parseOne Fixtures.env
       (teardownOf false 0
          (run Fixtures.parseOne Fixtures.env initial
             [Get Sample.plainQuery 0; Settle 0 (Js.Return ()) 1]))
       [OnMessage 0 Sample.parsedHello 2; Heartbeat 0 3])
  = [].
Proof.
  exact (proj2 (proj2
    (teardown_silences Fixtures.parseOne Fixtures.env false 0
       (run Fixtures.parseOne Fixtures.env initial
          [Get Sample.plainQuery 0; Settle 0 (Js.Return ()) 1])
       _ [OnMessage 0 Sample.parsedHello 2; Heartbeat 0 3] eq_refl))).
Defined.

(** X19.  A connection that is inactive (torn down, or stopped by a
    failed ping) stays inactive, and the only chunk that can still reach
    its channel is the [error] event of a failed setup: no [message], no
    [ping]. *)
Theorem inactive_connection_gets_no_data st conn c evs :
  connections st !! conn = Some c →
  isStreamActive c = false →
  ∃ c', connections (run parseInt env st evs) !! conn = Some c'
        ∧ isStreamActive c' = false
        ∧ Derived.otherChunks c' = Derived.otherChunks c.
Proof.
  intros Hc Hoff.
  destruct (run_keeps
              (fun x => isStreamActive x = false
                        ∧ Derived.otherChunks x = Derived.otherChunks c)
              evs st conn c) as (c' & Hc' & Hoff' & Hk); [|done|done|].
  - clear. intros x y Hev [Hx Hk]. destruct Hev; try done.
    + unfold settle. destruct (setup x); try done.
      destruct outcome; [done|]. split; [done|]. rewrite <- Hk.
      unfold Derived.otherChunks, enqueue. simpl.
      destruct (readable (controller x)); [|done]. simpl.
      rewrite filter_app. simpl. apply app_nil_r.
    + unfold onMessage. by rewrite Hx.
    + unfold heartbeat. by rewrite Hx.
    + split; [done|]. rewrite <- Hk. unfold Derived.otherChunks. simpl.
      by destruct cancelled.
  - by exists c'.
Qed.

Lemma evolves_greeted x y :
  Derived.evolves x y → Derived.greeted x → Derived.greeted y.
Proof.
  intros Hev (t & rest & Hx). destruct Hev.
  - by exists t, rest.
  - unfold settle. destruct (setup x); try by exists t, rest.
    destruct outcome; [by exists t, rest|].
    unfold Derived.greeted, enqueue. simpl.
    destruct (readable (controller x)); simpl; rewrite Hx; by eexists _, _.
  - unfold onMessage. destruct (negb (isStreamActive x)); [by exists t, rest|].
    unfold Derived.greeted, enqueue.
    destruct (readable (controller x)); simpl; rewrite Hx; by eexists _, _.
  - unfold heartbeat, Derived.greeted, enqueue.
    destruct (negb (isStreamActive x)); simpl; [by eexists _, _|].
    destruct (readable (controller x)); simpl; rewrite Hx; by eexists _, _.
  - unfold Derived.greeted. simpl. destruct cancelled; simpl; by eexists _, _.
Qed.

(** X20.  The handshake comes first: in every state the module reaches,
    the channel of every connection starts with the [connected] event
    that carries the connection's own topic and chat ids. *)
Theorem handshake_comes_first evs :
  Forall Derived.greeted (connections (run parseInt env initial evs)).
Proof.
  induction evs as [|ev evs IH] using rev_ind; [constructor|].
  unfold run in *. rewrite foldl_app. simpl.
  apply Forall_lookup. intros i c' Hc'.
  destruct (step_lookup_inv _ _ _ _ Hc')
    as [(c & Hc & Hev)|(chatId & topicId & now & st1 & ->)].
  - apply (evolves_greeted c); [done|].
    by apply (proj1 (Forall_lookup _ _) IH i).
  - by eexists _, _.
Qed.

(** X21.  An event addressed to one connection leaves the variables of
    every other connection as they are: its flag, its heartbeat interval
    and its channel. *)
Theorem event_leaves_other_connections st ev i c :
  connections st !! i = Some c →
  Derived.target ev ≠ Some i →
  connections (step parseInt env st ev) !! i = Some c.
Proof.
  intros Hc Hother.
  destruct ev as [q now|conn' o now|conn' m now|conn' now|conn'|conn'];
    simpl in *.
  - by apply lookup_app_l_Some.
  - rewrite list_lookup_alter_ne; [done | congruence].
  - rewrite list_lookup_alter_ne; [done | congruence].
  - rewrite list_lookup_alter_ne; [done | congruence].
  - unfold teardownOf. destruct (connections st !! conn'); [|done]. simpl.
    rewrite list_lookup_alter_ne; [done | congruence].
  - unfold teardownOf. destruct (connections st !! conn'); [|done]. simpl.
    rewrite list_lookup_alter_ne; [done | congruence].
Qed.

(** X22.  When the subscription cannot be set up while the channel is
    still readable, the route enqueues one [error] event with the error's
    message and closes the channel; it starts no heartbeat, leaves the
    active flag as it is, and does not call [disconnect()] on any
    wrapper. *)
Theorem setup_failure_reports_and_closes st conn c e now :
  connections st !! conn = Some c →
  setup c = Pending →
  readable (controller c) = true →
  ∃ c', connections (step parseInt env st (Settle conn (Js.Throw e) now))
          !! conn = Some c'
        ∧ chunks (controller c')
          = (chunks (controller c)
             ++ [error match e with
                       | Js.ErrorObject m => m
                       | Js.OtherValue => "Unknown error"
                       end now])%list
        ∧ readable (controller c') = false
        ∧ heartbeatInterval c' = heartbeatInterval c
        ∧ isStreamActive c' = isStreamActive c
        ∧ disconnected (step parseInt env st (Settle conn (Js.Throw e) now))
          = disconnected st.
Proof.
  intros Hc Hpending Hreadable. simpl.
  rewrite list_lookup_alter_eq, Hc. simpl. eexists. split; [done|].
  unfold settle, enqueue. rewrite Hpending, Hreadable. done.
Qed.

End StreamFacts.

Section StreamWitnesses.

Import StreamRoute.

Lemma inactive_connection_gets_no_data_witness :
  ∃ c', connections
          (run Fixtures.parseOne Fixtures.env
             (run Fixtures.parseOne Fixtures.env initial
                [Get Sample.plainQuery 0; Abort 0])
             [Settle 0 (Js.Return ()) 1; Heartbeat 0 2;
              OnMessage 0 Sample.parsedHello 3]) !! 0
        = Some c'
        ∧ isStreamActive c' = false
        ∧ Derived.otherChunks c'
          = [connected (Js.Num 1) "-1002731547761" 0].
Proof.
  exact (inactive_connection_gets_no_data Fixtures.parseOne Fixtures.env
           (run Fixtures.parseOne Fixtures.env initial
              [Get Sample.plainQuery 0; Abort 0])
           0 _ [Settle 0 (Js.Return ()) 1; Heartbeat 0 2;
                OnMessage 0 Sample.parsedHello 3] eq_refl eq_refl).
Defined.

Lemma event_leaves_other_connections_witness :
  connections
    (step Fixtures.parseOne Fixtures.env
       (run Fixtures.parseOne Fixtures.env initial
          [Get Sample.plainQuery 0; Get Sample.plainQuery 1])
       (Cancel 0)) !! 1
  = connections
      (run Fixtures.parseOne Fixtures.env initial
         [Get Sample.plainQuery 0; Get Sample.plainQuery 1]) !! 1.
Proof.
  exact (event_leaves_other_connections Fixtures.parseOne Fixtures.env
           (run Fixtures.parseOne Fixtures.env initial
              [Get Sample.plainQuery 0; Get Sample.plainQuery 1])
           (Cancel 0) 1 _ eq_refl ltac:(discriminate)).
Defined.

Lemma setup_failure_reports_and_closes_witness :
  ∃ c', connections
          (step Fixtures.parseOne Fixtures.env
             (run Fixtures.parseOne Fixtures.env initial
                [Get Sample.plainQuery 0])
             (Settle 0 (Js.Throw (Js.ErrorObject "Connection failed")) 1))
          !! 0 = Some c'
        ∧ chunks (controller c')
          = [connected (Js.Num 1) "-1002731547761" 0;
             error "Connection failed" 1]
        ∧ readable (controller c') = false.
Proof.
  destruct (setup_failure_reports_and_closes Fixtures.parseOne Fixtures.env
              (run Fixtures.parseOne Fixtures.env initial
                 [Get Sample.plainQuery 0])
              0 _ (Js.ErrorObject "Connection failed") 1
              eq_refl eq_refl eq_refl)
    as (c' & Hc' & Hchunks & Hclosed & _).
  exists c'. split; [exact Hc'|]. split; [exact Hchunks | exact Hclosed].
Defined.

End StreamWitnesses.

(** * Further properties of the display component *)

Section DisplayFacts.

Import MessageList.

(** X23.  Identifiers decide: once a message is in the list, a further
    [message] event with the same identifier changes nothing, even when
    its content differs. *)
Theorem repeated_identifier_ignored
    (m m' : Message) (now now' : Z) (st : State) :
  id m' = id m →
  step (step st (EsMessage (Some (type_message m)) now))
       (EsMessage (Some (type_message m')) now')
  = step st (EsMessage (Some (type_message m)) now).
Proof.
  intros Hid. simpl. unfold setMessages. simpl. f_equal.
  apply addMessage_known. rewrite Hid. unfold addMessage.
  destruct (existsb _ (messages st)) eqn:Hsome.
  - apply not_false_iff_true in Hsome.
    destruct (decide (id m ∈ id <$> messages st)) as [|Hnot]; [done|].
    by apply some_id_false in Hnot.
  - rewrite fmap_take, fmap_cons. simpl. apply list_elem_of_here.
Qed.

Lemma repeated_identifier_ignored_witness :
  id Sample.shown1 = id Sample.shown1
  ∧ messages
      (step (step (initial 0)
               (EsMessage (Some (type_message Sample.shown1)) 1))
            (EsMessage (Some (type_message Sample.shown1)) 2))
    = [Sample.shown1].
Proof.
  split; [reflexivity|].
  by rewrite (repeated_identifier_ignored Sample.shown1 Sample.shown1 1 2
                (initial 0) eq_refl).
Defined.

(** X24.  When the list is full, a new message pushes out the oldest
    entry, the last of the list, and the others keep their order behind
    the new one. *)
Theorem full_list_evicts_oldest (m : Message) (prev : list Message) :
  length prev = 100%nat →
  id m ∉ id <$> prev →
  ∃ rest oldest,
    prev = (rest ++ [oldest])%list ∧ addMessage m prev = m :: rest.
Proof.
  intros Hlen Hnew.
  destruct (drop 99 prev) as [|oldest [|x tl]] eqn:Hdrop.
  - apply (f_equal length) in Hdrop. rewrite length_drop in Hdrop.
    simpl in Hdrop. lia.
  - exists (take 99 prev), oldest. split.
    + by rewrite <- Hdrop, take_drop.
    + by apply addMessage_new.
  - apply (f_equal length) in Hdrop. rewrite length_drop in Hdrop.
    simpl in Hdrop. lia.
Qed.

Lemma full_list_evicts_oldest_witness :
  ∃ rest oldest,
    Fixtures.fullList = (rest ++ [oldest])%list
    ∧ addMessage (Fixtures.shown 101) Fixtures.fullList
      = Fixtures.shown 101 :: rest.
Proof.
  apply (full_list_evicts_oldest (Fixtures.shown 101) Fixtures.fullList).
  - reflexivity.
  - apply (proj1 (some_id_false _ _)). reflexivity.
Defined.

(** X25.  The watchdog fires once: when the component believes it is
    connected and the last ping is more than 45 seconds old, the check
    marks it disconnected, drops the event source and arms the reconnect
    timeout; further checks then do nothing, however late. *)
Theorem watchdog_fires_once (now now' : Z) (st : State) :
  connected st = true →
  (45000 < now - lastPing st)%Z →
  connected (step st (CheckConnection now)) = false
  ∧ eventSourceRef (step st (CheckConnection now)) = None
  ∧ reconnectTimeoutRef (step st (CheckConnection now))
    = Some (backoffDelay (reconnectAttemptsRef st))
  ∧ step (step st (CheckConnection now)) (CheckConnection now')
    = step st (CheckConnection now).
Proof.
  intros Hconn Hlate.
  assert (Hfire : step st (CheckConnection now)
                  = reconnect (setConnected false st)).
  { simpl. unfold checkConnection.
    by rewrite Hconn, (proj2 (Z.ltb_lt _ _) Hlate). }
  rewrite Hfire. repeat split.
  simpl. unfold checkConnection. simpl. by rewrite andb_false_r.
Qed.

Lemma watchdog_fires_once_witness :
  connected Fixtures.listening = true
  ∧ (45000 < 50000 - lastPing Fixtures.listening)%Z
  ∧ reconnectTimeoutRef (step Fixtures.listening (CheckConnection 50000))
    = Some 1000%Z.
Proof.
  split; [reflexivity|]. split; [reflexivity|].
  exact (proj1 (proj2 (proj2
           (watchdog_fires_once 50000 60000 Fixtures.listening
              eq_refl eq_refl)))).
Defined.

(** X26.  A ping keeps the watchdog quiet for 45 seconds: a check made
    no later than 45000 ms after a [ping] event changes nothing. *)
Theorem ping_keeps_watchdog_quiet (pinged now : Z) (st : State) :
  (now - pinged ≤ 45000)%Z →
  step (step st (EsMessage (Some type_ping) pinged)) (CheckConnection now)
  = step st (EsMessage (Some type_ping) pinged).
Proof.
  intros Hsoon. simpl. unfold checkConnection. simpl.
  by rewrite (proj2 (Z.ltb_ge _ _) Hsoon).
Qed.

Lemma ping_keeps_watchdog_quiet_witness :
  (45000 - 0 ≤ 45000)%Z
  ∧ connected
      (step (step Fixtures.listening (EsMessage (Some type_ping) 0))
            (CheckConnection 45000))
    = true.
Proof.
  split; [lia|].
  by rewrite (ping_keeps_watchdog_quiet 0 45000 Fixtures.listening
                ltac:(lia)).
Defined.

Lemma unmounted_step (st : State) (ev : Event) :
  Derived.setsUpUnasked ev = false →
  isActiveRef st = false → eventSourceRef st = None →
  isActiveRef (step st ev) = false
  ∧ eventSourceRef (step st ev) = None
  ∧ eventSources (step st ev) = eventSources st.
Proof.
  intros Hev Hoff Href. destruct ev; try done; simpl.
  - destruct data as [[| | | |]|]; done.
  - unfold onerror. simpl. by rewrite Hoff.
  - destruct (reconnectTimeoutRef st); [|done].
    unfold reconnectTimeout. simpl. by rewrite Hoff.
  - unfold checkConnection. by destruct (_ && _).
  - by destruct outcome.
Qed.

(** X27.  After the component has unmounted, stream events, timeouts,
    watchdog checks and late answers of the fetch never open an event
    source again: the ref stays empty and no [EventSource] is made. *)
Theorem unmounted_component_stays_closed (st : State) (evs : list Event) :
  Forall (fun ev => Derived.setsUpUnasked ev = false) evs →
  isActiveRef (run (step st Unmount) evs) = false
  ∧ eventSourceRef (run (step st Unmount) evs) = None
  ∧ eventSources (run (step st Unmount) evs) = eventSources st.
Proof.
  intros Hevs.
  assert (Hgen : ∀ st0, isActiveRef st0 = false → eventSourceRef st0 = None →
            isActiveRef (run st0 evs) = false
            ∧ eventSourceRef (run st0 evs) = None
            ∧ eventSources (run st0 evs) = eventSources st0).
  { induction Hevs as [|ev evs Hev _ IH]; intros st0 Hoff Href; [done|].
    destruct (unmounted_step st0 ev Hev Hoff Href) as (Hoff1 & Href1 & Hn1).
    destruct (IH _ Hoff1 Href1) as (Hoff2 & Href2 & Hn2).
    change (run st0 (ev :: evs)) with (run (step st0 ev) evs).
    repeat split; try done. congruence. }
  apply (Hgen (step st Unmount)); reflexivity.
Qed.

Lemma unmounted_component_stays_closed_witness :
  eventSources
    (run (step Fixtures.listening Unmount)
         [EsError; ReconnectTimeout; CheckConnection 50000; Refresh;
          ReconnectTimeout; EsOpen])
  = 1.
Proof.
  exact (proj2 (proj2
    (unmounted_component_stays_closed Fixtures.listening
       [EsError; ReconnectTimeout; CheckConnection 50000; Refresh;
        ReconnectTimeout; EsOpen]
       ltac:(repeat constructor)))).
Defined.

(** X28.  While the tab is hidden the component does not reconnect: a
    channel error arms no timeout, and a timeout that fires makes no
    attempt and is not set again.  When the tab becomes visible and no
    event source is referenced, a new one is opened at once, without the
    backoff delay and without counting an attempt. *)
Theorem hidden_tab_waits_for_visibility (st : State) :
  visible st = false →
  reconnectTimeoutRef (step st EsError) = reconnectTimeoutRef st
  ∧ eventSourceRef (step st EsError) = None
  ∧ (∀ delay, reconnectTimeoutRef st = Some delay →
       reconnectTimeoutRef (step st ReconnectTimeout) = None
       ∧ eventSources (step st ReconnectTimeout) = eventSources st
       ∧ reconnectAttemptsRef (step st ReconnectTimeout)
         = reconnectAttemptsRef st)
  ∧ eventSourceRef (step (step st EsError) (VisibilityChange true))
    = Some (eventSources st)
  ∧ reconnectAttemptsRef (step (step st EsError) (VisibilityChange true))
    = reconnectAttemptsRef st.
Proof.
  intros Hhidden.
  assert (Herr : step st EsError
                 = setEventSource None (eventSources st)
                     (setConnected false st)).
  { simpl. unfold onerror. simpl. by rewrite Hhidden, andb_false_r. }
  rewrite Herr. split; [done|]. split; [done|]. split; [|done].
  intros d Hd. simpl. rewrite Hd. unfold reconnectTimeout. simpl.
  by rewrite Hhidden, andb_false_r.
Qed.

Lemma hidden_tab_waits_for_visibility_witness :
  visible (step Fixtures.listening (VisibilityChange false)) = false
  ∧ eventSourceRef
      (step (step (step Fixtures.listening (VisibilityChange false)) EsError)
            (VisibilityChange true))
    = Some 1.
Proof.
  split; [reflexivity|].
  exact (proj1 (proj2 (proj2 (proj2
           (hidden_tab_waits_for_visibility
              (step Fixtures.listening (VisibilityChange false))
              eq_refl))))).
Defined.

(** X29.  The reconnect delay starts at one second, never falls when the
    attempt count grows, and is 30 seconds from the fifth counted attempt
    on. *)
Theorem backoffDelay_bounds (n m : nat) :
  backoffDelay 0 = 1000%Z
  ∧ (1000 ≤ backoffDelay n ≤ 30000)%Z
  ∧ ((n ≤ m)%nat → (backoffDelay n ≤ backoffDelay m)%Z)
  ∧ ((5 ≤ n)%nat → backoffDelay n = 30000%Z).
Proof.
  unfold backoffDelay. split; [reflexivity|].
  assert (Hpow : ∀ k, (1 ≤ 2 ^ Z.of_nat k)%Z).
  { intros k. apply (Z.pow_le_mono_r 2 0); lia. }
  split; [specialize (Hpow n); lia|]. split.
  - intros Hnm.
    assert (2 ^ Z.of_nat n ≤ 2 ^ Z.of_nat m)%Z
      by (apply Z.pow_le_mono_r; lia).
    lia.
  - intros Hn.
    assert (2 ^ 5 ≤ 2 ^ Z.of_nat n)%Z by (apply Z.pow_le_mono_r; lia).
    change (2 ^ 5)%Z with 32%Z in *. lia.
Qed.

End DisplayFacts.
